(** * modctl model-selection scripts: a shallow embedding

    Embeds [contrib/scripts/select-top-models.py] (the compatibility
    evaluator and the top-model selector) and [scripts/validate_workflow.py]
    (the offline validator) and states their properties.

    Conventions of the embedding.
    - Python values delivered by the hub client or decoded from JSON are
      terms of [pyval]; attribute-bearing objects and dicts are finite maps.
    - Python [str] is [string]; only the ASCII range is case-mapped, and
      the class [\d] of [re] is the ten ASCII digits.
    - Python [float] is idealised as an exact rational ([Q]): no overflow,
      no NaN, no binary rounding.
    - Code that can raise lives in the [result] monad; every [try]/[except]
      of the source is a [try_except] here.
    - [print] calls (diagnostics on stderr) are omitted from the selector;
      the validator's report lines are kept as a list of [event]s. *)

From Stdlib Require Import ZArith QArith String Ascii List Lia.
From stdpp Require Import base option gmap strings list.

Set Warnings "-register-all".

(** ** Python values, exceptions *)

Module Py.

Inductive pyval : Type :=
| PyNone
| PyBool (b : bool)
| PyInt (z : Z)
| PyFloat (q : Q)
| PyStr (s : string)
| PyList (l : list pyval)
| PyDict (d : gmap string pyval)
| PyObj (attrs : gmap string pyval).

Inductive exn : Type :=
| AttributeError
| TypeError
| HubError.

Inductive result (A : Type) : Type :=
| Ok (a : A)
| Raise (e : exn).
Arguments Ok {A} a.
Arguments Raise {A} e.

#[export] Instance result_ret : MRet result := λ A a, Ok a.

#[export] Instance result_bind : MBind result := λ A B f m,
  match m with
  | Ok a => f a
  | Raise e => Raise e
  end.

#[export] Instance result_fmap : FMap result := λ A B f m,
  match m with
  | Ok a => Ok (f a)
  | Raise e => Raise e
  end.

(** [try: body except Exception: handler] *)
Definition try_except {A} (body : result A) (handler : exn → result A) : result A :=
  match body with
  | Ok a => Ok a
  | Raise e => handler e
  end.

Definition returns {A} (m : result A) : Prop := ∃ a, m = Ok a.

(** [bool(v)] *)
Definition truthy (v : pyval) : bool :=
  match v with
  | PyNone => false
  | PyBool b => b
  | PyInt z => negb (z =? 0)%Z
  | PyFloat q => negb (Qeq_bool q 0)
  | PyStr s => negb (String.eqb s "")
  | PyList l => match l with [] => false | _ => true end
  | PyDict d => negb (bool_decide (d = ∅))
  | PyObj _ => true
  end.

(** [hasattr(v, name)] for the attribute names the scripts query
    ([siblings], [size], [rfilename], [config], [tags], [downloads],
    [likes]): none of them exists on the builtin types. *)
Definition hasattr (v : pyval) (name : string) : bool :=
  match v with
  | PyObj attrs => bool_decide (is_Some (attrs !! name))
  | _ => false
  end.

(** [v.name] *)
Definition getattr (v : pyval) (name : string) : result pyval :=
  match v with
  | PyObj attrs =>
      match attrs !! name with
      | Some x => Ok x
      | None => Raise AttributeError
      end
  | _ => Raise AttributeError
  end.

Fixpoint chars (s : string) : list pyval :=
  match s with
  | EmptyString => []
  | String c s' => PyStr (String c EmptyString) :: chars s'
  end.

(** [iter(v)]: the elements a [for] loop or a generator visits.  A dict
    yields its keys, in the enumeration order of the map. *)
Definition iter (v : pyval) : result (list pyval) :=
  match v with
  | PyList l => Ok l
  | PyStr s => Ok (chars s)
  | PyDict d => Ok (PyStr <$> (map_to_list d).*1)
  | _ => Raise TypeError
  end.

(** [acc + v] for a numeric accumulator [acc]. *)
Definition add_num (acc : Q) (v : pyval) : result Q :=
  match v with
  | PyInt z => Ok (acc + inject_Z z)%Q
  | PyFloat q => Ok (acc + q)%Q
  | PyBool b => Ok (acc + (if b then 1 else 0))%Q
  | _ => Raise TypeError
  end.

(** [v == s] for a string literal [s]. *)
Definition eq_str (v : pyval) (s : string) : bool :=
  match v with
  | PyStr t => String.eqb t s
  | _ => false
  end.

(** [v in S] for a set [S] of strings: hashes [v] first. *)
Definition in_str_set (v : pyval) (S : gset string) : result bool :=
  match v with
  | PyStr s => Ok (bool_decide (s ∈ S))
  | PyList _ | PyDict _ => Raise TypeError
  | _ => Ok false
  end.

(** [d.get(key)] *)
Definition dict_get (v : pyval) (key : string) : result pyval :=
  match v with
  | PyDict d => Ok (default PyNone (d !! key))
  | _ => Raise AttributeError
  end.

(** *** Strings *)

Definition lower_ascii (c : ascii) : ascii :=
  let n := nat_of_ascii c in
  if (65 <=? n)%nat && (n <=? 90)%nat then ascii_of_nat (n + 32) else c.

Definition upper_ascii (c : ascii) : ascii :=
  let n := nat_of_ascii c in
  if (97 <=? n)%nat && (n <=? 122)%nat then ascii_of_nat (n - 32) else c.

Fixpoint lower (s : string) : string :=
  match s with
  | EmptyString => EmptyString
  | String c s' => String (lower_ascii c) (lower s')
  end.

Fixpoint upper (s : string) : string :=
  match s with
  | EmptyString => EmptyString
  | String c s' => String (upper_ascii c) (upper s')
  end.

Fixpoint rev_onto (s acc : string) : string :=
  match s with
  | EmptyString => acc
  | String c s' => rev_onto s' (String c acc)
  end.

Definition srev (s : string) : string := rev_onto s EmptyString.

(** [s.startswith(p)] *)
Fixpoint startswith (s p : string) : bool :=
  match p, s with
  | EmptyString, _ => true
  | String a p', String b s' => Ascii.eqb a b && startswith s' p'
  | String _ _, EmptyString => false
  end.

(** [s.endswith(suffix)] *)
Definition endswith (s suffix : string) : bool :=
  startswith (srev s) (srev suffix).

(** [sub in s] *)
Fixpoint contains (sub s : string) : bool :=
  startswith s sub ||
  match s with
  | EmptyString => false
  | String _ s' => contains sub s'
  end.

(** [s.replace(a, b)] for single characters. *)
Fixpoint replace_char (a b : ascii) (s : string) : string :=
  match s with
  | EmptyString => EmptyString
  | String c s' => String (if Ascii.eqb c a then b else c) (replace_char a b s')
  end.

(** *** Floats (idealised) *)

(** [round(x)] to an integer, ties to even. *)
Definition round_half_even (q : Q) : Z :=
  let n := Qnum q in
  let d := Zpos (Qden q) in
  let fl := (n / d)%Z in
  let r := (n mod d)%Z in
  match (2 * r ?= d)%Z with
  | Lt => fl
  | Gt => (fl + 1)%Z
  | Eq => if Z.even fl then fl else (fl + 1)%Z
  end.

(** [round(x, 2)] *)
Definition round2 (q : Q) : Q := Qmake (round_half_even (q * 100)) 100.

End Py.

Import Py.

(** ** Regular expressions: the fragment of [re] the patterns use

    Backtracking matcher with greedy quantifiers over character classes and
    one capturing group, in continuation-passing style.  The continuation
    receives the unread input and the text captured so far. *)

Module Re.

Inductive regex : Type :=
| Chr (p : ascii → bool)          (* one character of a class *)
| Opt (p : ascii → bool)          (* [c?] *)
| Star (p : ascii → bool)         (* [c*] *)
| Plus (p : ascii → bool)         (* [c+] *)
| Seq (r1 r2 : regex)
| Group (r : regex).              (* [( ... )], group 1 *)

Definition first_some {A} (x y : option A) : option A :=
  match x with
  | Some a => Some a
  | None => y
  end.

(** Greedy [c*]: take a character if possible, give it back on failure. *)
Fixpoint star {A} (p : ascii → bool) (s : string) (k : string → option A) : option A :=
  match s with
  | String c s' => if p c then first_some (star p s' k) (k s) else k s
  | EmptyString => k s
  end.

(** The first [n] characters of [s]. *)
Fixpoint take_str (n : nat) (s : string) : string :=
  match n, s with
  | S n', String c s' => String c (take_str n' s')
  | _, _ => EmptyString
  end.

Definition consumed (s rest : string) : string :=
  take_str (String.length s - String.length rest) s.

Fixpoint matches {A} (r : regex) (s : string) (cap : option string)
    (k : string → option string → option A) : option A :=
  match r with
  | Chr p =>
      match s with
      | String c s' => if p c then k s' cap else None
      | EmptyString => None
      end
  | Opt p =>
      match s with
      | String c s' => if p c then first_some (k s' cap) (k s cap) else k s cap
      | EmptyString => k s cap
      end
  | Star p => star p s (λ rest, k rest cap)
  | Plus p =>
      match s with
      | String c s' => if p c then star p s' (λ rest, k rest cap) else None
      | EmptyString => None
      end
  | Seq r1 r2 => matches r1 s cap (λ rest cap', matches r2 rest cap' k)
  | Group r' => matches r' s cap (λ rest _, k rest (Some (consumed s rest)))
  end.

(** [re.match(r, s)]: the text of group 1 when [r] matches a prefix of [s]. *)
Definition match_here (r : regex) (s : string) : option (option string) :=
  matches r s None (λ _ cap, Some cap).

(** [re.search(r, s)]: leftmost match; the result is [m.group(1)]. *)
Fixpoint search (r : regex) (s : string) : option (option string) :=
  first_some (match_here r s)
    match s with
    | EmptyString => None
    | String _ s' => search r s'
    end.

Definition digit (c : ascii) : bool :=
  let n := nat_of_ascii c in (48 <=? n)%nat && (n <=? 57)%nat.

Definition is_char (a : ascii) (c : ascii) : bool := Ascii.eqb c a.

Definition one_of (a b : ascii) (c : ascii) : bool := Ascii.eqb c a || Ascii.eqb c b.

End Re.

(** ** contrib/scripts/select-top-models.py *)

Module Selector.

Definition SUPPORTED_FORMATS : list string :=
  ["safetensors"; "gguf"; "bin"; "pt"; "pth"; "onnx"].

(** [KNOWN_FAMILIES] is a Python [set]: membership does not depend on any
    order, iteration does (see [detect_family]). *)
Definition KNOWN_FAMILIES : gset string :=
  {[ "llama"; "qwen"; "qwen2"; "qwen3"; "mistral"; "phi"; "gpt2"; "gpt_neo";
     "gpt_neox"; "bloom"; "opt"; "falcon"; "mpt"; "stablelm" ]}.

(** The hub client: [api.model_info(model_id, files_metadata=True)] and the
    ids of the models that [api.list_models(filter, sort, direction=-1,
    limit)] streams, in rank order. *)
Record HfApi : Type := {
  model_info : string → result pyval;
  list_models : option string → string → Z → list string;
}.

(** [hasattr(v, name) and v.name] as a condition. *)
Definition has_truthy (v : pyval) (name : string) : result bool :=
  if hasattr v name then x ← getattr v name; mret (truthy x) else mret false.

(** [s.lower()] on an arbitrary value. *)
Definition str_lower (v : pyval) : result string :=
  match v with
  | PyStr s => Ok (lower s)
  | _ => Raise AttributeError
  end.

(** *** get_model_size_gb *)

Fixpoint sum_sizes (files : list pyval) (total_size : Q) : result Q :=
  match files with
  | [] => Ok total_size
  | file :: rest =>
      c ← has_truthy file "size";
      if c : bool then
        sz ← getattr file "size";
        total_size' ← add_num total_size sz;
        sum_sizes rest total_size'
      else sum_sizes rest total_size
  end.

Definition get_model_size_gb_body (model_info : pyval) : result Q :=
  c ← has_truthy model_info "siblings";
  total_size ← (if c : bool then
                   siblings ← getattr model_info "siblings";
                   files ← iter siblings;
                   sum_sizes files 0%Q
                 else Ok 0%Q);
  Ok (total_size / inject_Z (1024 ^ 3))%Q.

Definition get_model_size_gb (model_info : pyval) : result (option Q) :=
  try_except (Some <$> get_model_size_gb_body model_info) (λ _, Ok None).

(** *** has_config_json *)

(** [any(f.rfilename == "config.json" for f in files)] *)
Fixpoint any_config (files : list pyval) : result bool :=
  match files with
  | [] => Ok false
  | f :: rest =>
      name ← getattr f "rfilename";
      if eq_str name "config.json" then Ok true else any_config rest
  end.

Definition has_config_json_body (model_info : pyval) : result bool :=
  c ← has_truthy model_info "siblings";
  if c : bool then
    siblings ← getattr model_info "siblings";
    files ← iter siblings;
    any_config files
  else Ok false.

(** Returns [True], [False], or [None] after an exception. *)
Definition has_config_json (model_info : pyval) : result (option bool) :=
  try_except (Some <$> has_config_json_body model_info) (λ _, Ok None).

(** *** get_model_format *)

(** The [if]/[elif] chain applied to one lower-cased file name. *)
Definition file_format (filename : string) : option string :=
  if endswith filename ".safetensors" then Some "safetensors"
  else if endswith filename ".gguf" then Some "gguf"
  else if endswith filename ".onnx" then Some "onnx"
  else if endswith filename ".bin" && contains "pytorch_model" filename then Some "bin"
  else if endswith filename ".pt" || endswith filename ".pth" then Some "pt"
  else None.

Fixpoint format_loop (files : list pyval) : result (option string) :=
  match files with
  | [] => Ok None
  | file :: rest =>
      name ← getattr file "rfilename";
      filename ← str_lower name;
      match file_format filename with
      | Some fmt => Ok (Some fmt)
      | None => format_loop rest
      end
  end.

Definition get_model_format_body (model_info : pyval) : result (option string) :=
  c ← has_truthy model_info "siblings";
  if negb c then Ok None
  else
    siblings ← getattr model_info "siblings";
    files ← iter siblings;
    format_loop files.

Definition get_model_format (model_info : pyval) : result (option string) :=
  try_except (get_model_format_body model_info) (λ _, Ok None).

(** *** extract_param_size *)

(** The pattern [( \d+ \.? \d* [BM] )]. *)
Definition pattern_upper : Re.regex :=
  Re.Group (Re.Seq (Re.Plus Re.digit)
           (Re.Seq (Re.Opt (Re.is_char "."))
           (Re.Seq (Re.Star Re.digit)
                   (Re.Chr (Re.one_of "B" "M"))))).

(** The pattern [( \d+ \.? \d* ) b], written without the spaces in the
    source. *)
Definition pattern_lower : Re.regex :=
  Re.Seq (Re.Group (Re.Seq (Re.Plus Re.digit)
                   (Re.Seq (Re.Opt (Re.is_char "."))
                           (Re.Star Re.digit))))
         (Re.Chr (Re.is_char "b")).

Definition patterns : list Re.regex := [pattern_upper; pattern_lower].

Definition normalize_size (group1 : string) : string :=
  let size := upper group1 in
  if negb (endswith size "B") && negb (endswith size "M")
  then size +:+ "B" else size.

Fixpoint search_patterns (ps : list Re.regex) (model_name : string) : option string :=
  match ps with
  | [] => None
  | pattern :: rest =>
      match Re.search pattern model_name with
      | Some g => Some (normalize_size (default "" g))
      | None => search_patterns rest model_name
      end
  end.

Definition extract_param_size (model_id : string) : option string :=
  let model_name := lower model_id in
  search_patterns patterns model_name.

(** *** detect_family, is_compatible_model, select_top_models

    [order] is the order in which this process iterates the set
    [KNOWN_FAMILIES].  Python leaves it unspecified; CPython derives it from
    string hashes that are salted per process, so two runs of the script may
    see two different orders. *)

Section WithIterationOrder.

Variable order : list string.

Fixpoint first_known_tag (tags : list pyval) : result (option pyval) :=
  match tags with
  | [] => Ok None
  | tag :: rest =>
      b ← in_str_set tag KNOWN_FAMILIES;
      if b : bool then Ok (Some tag) else first_known_tag rest
  end.

(** [for family in KNOWN_FAMILIES: if family in name: return family] *)
Definition first_family_in (model_name_lower : string) : option string :=
  List.find (λ family, contains family model_name_lower) order.

Definition family_from_config (model_info : pyval) : result (option pyval) :=
  c ← has_truthy model_info "config";
  if c : bool then
    config ← getattr model_info "config";
    model_type ← dict_get config "model_type";
    if truthy model_type then
      b ← in_str_set model_type KNOWN_FAMILIES;
      if b : bool then Ok (Some model_type) else Ok None
    else Ok None
  else Ok None.

Definition family_from_tags (model_info : pyval) : result (option pyval) :=
  c ← has_truthy model_info "tags";
  if c : bool then
    tags ← getattr model_info "tags";
    l ← iter tags;
    first_known_tag l
  else Ok None.

Definition detect_family_body (model_info : pyval) (model_id : string) : result pyval :=
  from_config ← family_from_config model_info;
  match from_config with
  | Some model_type => Ok model_type
  | None =>
      from_tags ← family_from_tags model_info;
      match from_tags with
      | Some tag => Ok tag
      | None =>
          let model_name_lower := lower model_id in
          match first_family_in model_name_lower with
          | Some family => Ok (PyStr family)
          | None => Ok PyNone
          end
      end
  end.

Definition detect_family (model_info : pyval) (model_id : string) : result pyval :=
  try_except (detect_family_body model_info model_id) (λ _, Ok PyNone).

(** [a or b] *)
Definition py_or (a b : pyval) : pyval := if truthy a then a else b.

Definition or_str (o : option string) (d : string) : string :=
  match o with
  | Some s => if String.eqb s "" then d else s
  | None => d
  end.

(** [size_gb and size_gb > max_size_gb] *)
Definition too_large (size_gb : option Q) (max_size_gb : Q) : bool :=
  match size_gb with
  | Some q => negb (Qeq_bool q 0) && negb (Qle_bool q max_size_gb)
  | None => false
  end.

(** [round(size_gb, 2) if size_gb else None] *)
Definition rounded_size (size_gb : option Q) : pyval :=
  match size_gb with
  | Some q => if negb (Qeq_bool q 0) then PyFloat (round2 q) else PyNone
  | None => PyNone
  end.

Definition attr_or_zero (model_info : pyval) (name : string) : result pyval :=
  if hasattr model_info name then getattr model_info name else Ok (PyInt 0).

(** The [metadata] dict literal. *)
Definition make_metadata (model_id : string) (family : pyval) (format_type : string)
    (param_size : option string) (size_gb : option Q) (downloads likes : pyval)
    : gmap string pyval :=
  <["id" := PyStr model_id]> (
  <["family" := py_or family (PyStr "unknown")]> (
  <["arch" := PyStr "transformer"]> (
  <["format" := PyStr format_type]> (
  <["param_size" := PyStr (or_str param_size "unknown")]> (
  <["size_gb" := rounded_size size_gb]> (
  <["downloads" := downloads]> (
  <["likes" := likes]> ∅))))))).

Definition rejected : result (bool * option (gmap string pyval)) := Ok (false, None).

Definition is_compatible_model (api : HfApi) (model_id : string) (max_size_gb : Q)
    : result (bool * option (gmap string pyval)) :=
  match model_info api model_id with
  | Raise _ => rejected
  | Ok info =>
      has_config ← has_config_json info;
      if negb (default false has_config) then rejected
      else
        format_type ← get_model_format info;
        match format_type with
        | None => rejected
        | Some fmt =>
            if String.eqb fmt "" then rejected
            else
              size_gb ← get_model_size_gb info;
              if too_large size_gb max_size_gb then rejected
              else
                family ← detect_family info model_id;
                let param_size := extract_param_size model_id in
                downloads ← attr_or_zero info "downloads";
                likes ← attr_or_zero info "likes";
                Ok (true, Some (make_metadata model_id family fmt param_size
                                              size_gb downloads likes))
        end
  end.

(** The [for model in models] loop; [selected] is the list built so far. *)
Fixpoint select_loop (api : HfApi) (limit : Z) (max_size_gb : Q)
    (models : list string) (selected : list (gmap string pyval))
    : result (list (gmap string pyval)) :=
  match models with
  | [] => Ok selected
  | model_id :: rest =>
      r ← is_compatible_model api model_id max_size_gb;
      match r with
      | (true, Some metadata) =>
          if bool_decide (metadata = ∅) then select_loop api limit max_size_gb rest selected
          else
            let selected' := selected ++ [metadata] in
            if (Z.of_nat (length selected') >=? limit)%Z then Ok selected'
            else select_loop api limit max_size_gb rest selected'
      | _ => select_loop api limit max_size_gb rest selected
      end
  end.

Definition select_top_models (api : HfApi) (limit : Z) (max_size_gb : Q)
    (sort_by : string) (task : option string) : result (list (gmap string pyval)) :=
  let fetch_limit := (limit * 10)%Z in
  let models := list_models api task sort_by fetch_limit in
  select_loop api limit max_size_gb models [].

End WithIterationOrder.

End Selector.

(** ** scripts/validate_workflow.py *)

Module Validator.

(** One line of the validation report printed on stdout. *)
Inductive event : Type :=
| Validating (number : nat) (id : pyval)
| MissingField (field : string)
| Warning (field : string) (value : pyval)
| FieldOk (field : string) (value : pyval)
| SizeOk (value : pyval)
| SizeNotAvailable.

Definition required_fields : list string :=
  ["id"; "family"; "arch"; "format"; "param_size"].

(** The [for field in required_fields] loop of one model.  The boolean is
    [false] when the loop left through [return False]. *)
Fixpoint check_fields (model : gmap string pyval) (fields : list string)
    : list event * bool :=
  match fields with
  | [] => ([], true)
  | field :: rest =>
      match model !! field with
      | None => ([MissingField field], false)
      | Some value =>
          let line :=
            if eq_str value "unknown" && bool_decide (field ∈ ["family"; "param_size"])
            then Warning field value
            else FieldOk field value in
          let '(log, ok) := check_fields model rest in
          (line :: log, ok)
      end
  end.

Definition size_line (model : gmap string pyval) : event :=
  match model !! "size_gb" with
  | Some v => if truthy v then SizeOk v else SizeNotAvailable
  | None => SizeNotAvailable
  end.

(** The [for i, model in enumerate(models)] loop, from index [i]. *)
Fixpoint validate_from (i : nat) (models : list (gmap string pyval))
    : list event * bool :=
  match models with
  | [] => ([], true)
  | model :: rest =>
      let header := Validating (i + 1) (default (PyStr "UNKNOWN") (model !! "id")) in
      let '(log, ok) := check_fields model required_fields in
      if ok then
        let '(log', r) := validate_from (S i) rest in
        (header :: log ++ size_line model :: log', r)
      else (header :: log, false)
  end.

Definition validate_models_json (models : list (gmap string pyval)) : list event * bool :=
  validate_from 0 models.

(** [model_id.lower().replace('/', '-')] *)
Definition image_name (model_id : string) : string :=
  replace_char "/" "-" (lower model_id).

(** [sum(m.get('size_gb', 0) for m in models)], from the accumulator
    [total]. *)
Fixpoint sum_size_gb (models : list (gmap string pyval)) (total : Q) : result Q :=
  match models with
  | [] => Ok total
  | m :: rest =>
      total' ← add_num total (default (PyInt 0) (m !! "size_gb"));
      sum_size_gb rest total'
  end.

(** Step 6 of [main]: [(total_size, estimated_ghcr_size)]. *)
Definition storage_estimation (models : list (gmap string pyval)) : result (Q * Q) :=
  total_size ← sum_size_gb models 0%Q;
  let estimated_ghcr_size := (total_size * (11 # 10))%Q in
  Ok (total_size, estimated_ghcr_size).

End Validator.

(** ** Notions used to state the properties *)

Module Notions.

Import Selector.

(** The descriptor the evaluator builds for a candidate, if it accepts it. *)
Definition evaluate (order : list string) (api : HfApi) (max_size_gb : Q)
    (model_id : string) : option (gmap string pyval) :=
  match is_compatible_model order api model_id max_size_gb with
  | Ok (true, Some metadata) => Some metadata
  | _ => None
  end.

(** The descriptors of all accepted candidates of a stream, in rank order. *)
Definition accepted (order : list string) (api : HfApi) (max_size_gb : Q)
    (models : list string) : list (gmap string pyval) :=
  omap (evaluate order api max_size_gb) models.

(** A well-formed entry of [siblings]: an object with a string
    [rfilename] and whatever other attributes [attrs] holds. *)
Definition file_obj (rfilename : string) (attrs : gmap string pyval) : pyval :=
  PyObj (<["rfilename" := PyStr rfilename]> attrs).

(** A model-info object whose [siblings] is a list of well-formed files. *)
Definition listing_info (files : list (string * gmap string pyval))
    (attrs : gmap string pyval) : pyval :=
  PyObj (<["siblings" := PyList ((λ f, file_obj f.1 f.2) <$> files)]> attrs).

(** The formats the [if]/[elif] chain of [get_model_format] can return. *)
Definition emitted_formats : list string :=
  ["safetensors"; "gguf"; "onnx"; "bin"; "pt"].

(** No character of [s] is an upper-case [B] or [M]. *)
Fixpoint no_BM (s : string) : Prop :=
  match s with
  | EmptyString => True
  | String c s' => Re.one_of "B" "M" c = false ∧ no_BM s'
  end.

(** A continuation that fails on every text free of [B] and [M]. *)
Definition dead {A} (k : string → option string → option A) : Prop :=
  ∀ rest cap, no_BM rest → k rest cap = None.

(** The pattern cannot match without reading an upper-case [B] or [M]
    last. *)
Fixpoint ends_in_BM (r : Re.regex) : Prop :=
  match r with
  | Re.Chr p => p = Re.one_of "B" "M"
  | Re.Seq _ r2 => ends_in_BM r2
  | Re.Group r' => ends_in_BM r'
  | _ => False
  end.

(** [order] lists the members of [KNOWN_FAMILIES], each once: an order in
    which some process may iterate the set. *)
Definition iteration_order (order : list string) : Prop :=
  order ≡ₚ elements KNOWN_FAMILIES.

(** At most one known family name occurs in [name]. *)
Definition at_most_one_family (name : string) : Prop :=
  ∀ f g, f ∈ KNOWN_FAMILIES → g ∈ KNOWN_FAMILIES →
         contains f name = true → contains g name = true → f = g.

(** Every required field is a key of the descriptor. *)
Definition complete (model : gmap string pyval) : Prop :=
  Forall (λ field, is_Some (model !! field)) Validator.required_fields.

(** The number a descriptor contributes to the storage total when its
    [size_gb] is absent or numeric. *)
Definition size_of (model : gmap string pyval) : Q :=
  match model !! "size_gb" with
  | Some (PyInt z) => inject_Z z
  | Some (PyFloat q) => q
  | _ => 0
  end.

Definition size_absent_or_number (model : gmap string pyval) : Prop :=
  match model !! "size_gb" with
  | None | Some (PyInt _) | Some (PyFloat _) => True
  | _ => False
  end.

End Notions.

(** ** Sample catalogs *)

Module Sample.

Import Selector Notions.

(** Two orders in which a process may iterate [KNOWN_FAMILIES]. *)
Definition order_a : list string := elements KNOWN_FAMILIES.
Definition order_b : list string := reverse (elements KNOWN_FAMILIES).

Definition file (rfilename : string) (size : Z) : string * gmap string pyval :=
  (rfilename, {["size" := PyInt size]}).

Definition popularity (downloads likes : Z) : gmap string pyval :=
  <["downloads" := PyInt downloads]> {["likes" := PyInt likes]}.

(** Passes every check; about 2.79 GB.  The hub reports no parsed config
    and no tag that names a family. *)
Definition info_qwen : pyval :=
  listing_info
    [file "config.json" 700; file "model.safetensors" 3000000000]
    (<["config" := PyNone]>
     (<["tags" := PyList [PyStr "transformers"; PyStr "text-generation"]]>
      (popularity 1200 35))).

(** No [config.json]. *)
Definition info_no_config : pyval :=
  listing_info [file "model.safetensors" 1000000] (popularity 900 10).

(** About 65 GB. *)
Definition info_large : pyval :=
  listing_info
    [file "config.json" 650; file "model-00001.safetensors" 70000000000]
    (popularity 800 9).

(** A [.bin] listed before a [.safetensors]. *)
Definition info_bin_first : pyval :=
  listing_info
    [file "config.json" 600; file "pytorch_model.bin" 500000000;
     file "model.safetensors" 500000000]
    (popularity 50 1).

(** The same files, the [.safetensors] listed first. *)
Definition info_safetensors_first : pyval :=
  listing_info
    [file "config.json" 600; file "model.safetensors" 500000000;
     file "pytorch_model.bin" 500000000]
    (popularity 50 1).

(** File sizes unknown to the hub. *)
Definition info_no_sizes : pyval :=
  listing_info
    [("config.json", ∅); ("model.safetensors", ∅)]
    (<["config" := PyDict {["model_type" := PyStr "opt"]}]> (popularity 40 2)).

(** [siblings] is not a sequence. *)
Definition info_malformed : pyval :=
  PyObj {["siblings" := PyInt 5]}.

Definition catalog (model_id : string) : result pyval :=
  if String.eqb model_id "Qwen/Qwen2-7B-Instruct" then Ok info_qwen
  else if String.eqb model_id "acme/no-config" then Ok info_no_config
  else if String.eqb model_id "acme/llama-70b" then Ok info_large
  else if String.eqb model_id "acme/both-formats" then Ok info_bin_first
  else if String.eqb model_id "facebook/opt-350M" then Ok info_no_sizes
  else if String.eqb model_id "acme/broken" then Ok info_malformed
  else Raise HubError.

Definition api (stream : list string) : HfApi :=
  {| model_info := catalog; list_models := λ _ _ _, stream |}.

Definition stream3 : list string :=
  ["acme/no-config"; "acme/llama-70b"; "Qwen/Qwen2-7B-Instruct"].

Definition descriptor_qwen (family : string) : gmap string pyval :=
  make_metadata "Qwen/Qwen2-7B-Instruct" (PyStr family) "safetensors" (Some "7B")
    (Some (3000000700 # 1073741824)) (PyInt 1200) (PyInt 35).

Definition descriptor_opt : gmap string pyval :=
  make_metadata "facebook/opt-350M" (PyStr "opt") "safetensors" None
    (Some 0%Q) (PyInt 40) (PyInt 2).

(** A descriptor that lost its [param_size] on the way to the validator. *)
Definition descriptor_missing : gmap string pyval :=
  delete "param_size" (descriptor_qwen "qwen2").

End Sample.

(** ** Further notions: well-formed metadata, pattern languages *)

Module Shapes.

Import Selector Notions.

(** The keys of the [metadata] dict literal. *)
Definition descriptor_keys : gset string :=
  {[ "id"; "family"; "arch"; "format"; "param_size"; "size_gb";
     "downloads"; "likes" ]}.

(** A file entry whose [size] attribute is an integer, or is missing. *)
Definition sized_file (f : string * option Z) : string * gmap string pyval :=
  (f.1, match f.2 with
        | Some z => {["size" := PyInt z]}
        | None => ∅
        end).

(** The bytes of a listing, a missing size counting for nothing. *)
Definition total_bytes (files : list (string * option Z)) : Z :=
  foldr (λ f acc, default 0 f.2 + acc)%Z 0%Z files.

(** A model-info object with a parsed config dict and a list of string
    tags. *)
Definition tagged_info (config : gmap string pyval) (tags : list string)
    (attrs : gmap string pyval) : pyval :=
  PyObj (<["config" := PyDict config]> (<["tags" := PyList (PyStr <$> tags)]> attrs)).

(** The family named by the config, when it is a known one. *)
Definition known_model_type (config : gmap string pyval) : option string :=
  match config !! "model_type" with
  | Some (PyStr s) => if bool_decide (s ∈ KNOWN_FAMILIES) then Some s else None
  | _ => None
  end.

(** The ids of the descriptors, for descriptors that carry a string id. *)
Definition descriptor_id (metadata : gmap string pyval) : option string :=
  match metadata !! "id" with
  | Some (PyStr s) => Some s
  | _ => None
  end.

Fixpoint all_chars (p : ascii → bool) (s : string) : bool :=
  match s with
  | EmptyString => true
  | String c s' => p c && all_chars p s'
  end.

Definition is_upper (c : ascii) : bool :=
  let n := nat_of_ascii c in (65 <=? n)%nat && (n <=? 90)%nat.

(** The words a pattern matches, read off its syntax. *)
Fixpoint lang (r : Re.regex) (w : string) : Prop :=
  match r with
  | Re.Chr p => ∃ c, w = String c EmptyString ∧ p c = true
  | Re.Opt p => w = EmptyString ∨ ∃ c, w = String c EmptyString ∧ p c = true
  | Re.Star p => all_chars p w = true
  | Re.Plus p => w ≠ EmptyString ∧ all_chars p w = true
  | Re.Seq r1 r2 => ∃ w1 w2, w = w1 +:+ w2 ∧ lang r1 w1 ∧ lang r2 w2
  | Re.Group r' => lang r' w
  end.

Fixpoint group_free (r : Re.regex) : Prop :=
  match r with
  | Re.Seq r1 r2 => group_free r1 ∧ group_free r2
  | Re.Group _ => False
  | _ => True
  end.

(** The number inside the group of both patterns: digits, an optional
    dot, digits. *)
Definition number_re : Re.regex :=
  Re.Seq (Re.Plus Re.digit) (Re.Seq (Re.Opt (Re.is_char ".")) (Re.Star Re.digit)).

Definition number_char (c : ascii) : bool := Re.digit c || Re.is_char "." c.

End Shapes.

(** * Properties *)


Import Selector Validator Notions Shapes.

(** ** The result monad *)

Lemma try_except_returns {A} (body : result A) (a : A) :
  returns (try_except body (λ _, Ok a)).
Proof. destruct body as [x|e]; [exists x | exists a]; reflexivity. Qed.

Lemma bind_Ok {A B} (m : result A) (f : A → result B) (b : B) :
  (m ≫= f) = Ok b → ∃ a, m = Ok a ∧ f a = Ok b.
Proof. destruct m as [a|e]; [exists a; split; [reflexivity | assumption] | discriminate]. Qed.

Ltac inv_bind H :=
  let a := fresh "a" in
  let Ha := fresh "Ha" in
  apply bind_Ok in H; destruct H as (a & Ha & H).

(** ** The evaluator's checks never raise *)

Lemma has_config_json_returns info : returns (has_config_json info).
Proof. apply try_except_returns. Qed.

Lemma get_model_format_returns info : returns (get_model_format info).
Proof. apply try_except_returns. Qed.

Lemma get_model_size_gb_returns info : returns (get_model_size_gb info).
Proof. apply try_except_returns. Qed.

Lemma detect_family_returns order info model_id :
  returns (detect_family order info model_id).
Proof. apply try_except_returns. Qed.

Lemma attr_or_zero_returns info name : returns (attr_or_zero info name).
Proof.
  unfold attr_or_zero, hasattr, getattr.
  destruct info; try (eexists; reflexivity).
  destruct (attrs !! name) as [v|] eqn:E.
  - rewrite bool_decide_true by eauto. eexists; reflexivity.
  - rewrite bool_decide_false by (intros [? ?]; discriminate). eexists; reflexivity.
Qed.

(** What an acceptance tells about the candidate: every check passed and the
    descriptor is the dict literal built from the extracted values. *)
Lemma is_compatible_model_inv order api model_id max_size_gb r :
  is_compatible_model order api model_id max_size_gb = Ok r →
  r = (false, None) ∨
  ∃ info fmt size_gb family downloads likes,
    model_info api model_id = Ok info ∧
    has_config_json info = Ok (Some true) ∧
    get_model_format info = Ok (Some fmt) ∧
    get_model_size_gb info = Ok size_gb ∧
    too_large size_gb max_size_gb = false ∧
    detect_family order info model_id = Ok family ∧
    r = (true, Some (make_metadata model_id family fmt
                       (extract_param_size model_id) size_gb downloads likes)).
Proof.
  unfold is_compatible_model, rejected. intros H.
  destruct (model_info api model_id) as [info|e] eqn:Hinfo.
  2:{ left. congruence. }
  inv_bind H. destruct a as [[|]|]; simpl in H; try (left; congruence).
  inv_bind H. destruct a as [fmt|]; try (left; congruence).
  destruct (String.eqb fmt ""); try (left; congruence).
  inv_bind H. destruct (too_large a max_size_gb) eqn:Hlarge; try (left; congruence).
  inv_bind H. inv_bind H. inv_bind H.
  right. exists info, fmt, a, a0, a1, a2.
  repeat split; try assumption. congruence.
Qed.

Lemma is_compatible_model_returns order api model_id max_size_gb :
  returns (is_compatible_model order api model_id max_size_gb).
Proof.
  unfold is_compatible_model, rejected.
  destruct (model_info api model_id) as [info|e]; [|eexists; reflexivity].
  destruct (has_config_json_returns info) as [c ->]. simpl.
  destruct (negb (default false c)); [eexists; reflexivity|].
  destruct (get_model_format_returns info) as [f ->]. simpl.
  destruct f as [fmt|]; [|eexists; reflexivity].
  destruct (String.eqb fmt ""); [eexists; reflexivity|].
  destruct (get_model_size_gb_returns info) as [s ->]. simpl.
  destruct (too_large s max_size_gb); [eexists; reflexivity|].
  destruct (detect_family_returns order info model_id) as [fam ->]. simpl.
  destruct (attr_or_zero_returns info "downloads") as [d ->]. simpl.
  destruct (attr_or_zero_returns info "likes") as [l ->]. simpl.
  eexists; reflexivity.
Qed.

Lemma make_metadata_nonempty model_id family fmt param_size size_gb downloads likes :
  make_metadata model_id family fmt param_size size_gb downloads likes ≠ ∅.
Proof. unfold make_metadata. apply insert_non_empty. Qed.

(** ** The selection loop *)

Lemma evaluate_Some order api max_size_gb model_id metadata :
  evaluate order api max_size_gb model_id = Some metadata ↔
  is_compatible_model order api model_id max_size_gb = Ok (true, Some metadata).
Proof.
  unfold evaluate.
  destruct (is_compatible_model order api model_id max_size_gb)
    as [[[|] [m|]]|e]; split; intros H; congruence.
Qed.

Lemma accepted_metadata_nonempty order api model_id max_size_gb metadata :
  is_compatible_model order api model_id max_size_gb = Ok (true, Some metadata) →
  metadata ≠ ∅.
Proof.
  intros H. apply is_compatible_model_inv in H.
  destruct H as [H | (info & fmt & sz & fam & dl & lk & _ & _ & _ & _ & _ & _ & H)].
  - discriminate.
  - injection H as ->. apply make_metadata_nonempty.
Qed.

(** One iteration of the loop on an accepted candidate. *)
Lemma select_loop_accept order api limit max_size_gb model_id rest selected metadata :
  is_compatible_model order api model_id max_size_gb = Ok (true, Some metadata) →
  select_loop order api limit max_size_gb (model_id :: rest) selected =
  if (Z.of_nat (length (selected ++ [metadata])) >=? limit)%Z
  then Ok (selected ++ [metadata])
  else select_loop order api limit max_size_gb rest (selected ++ [metadata]).
Proof.
  intros H. simpl. rewrite H. simpl.
  rewrite bool_decide_false by (eapply accepted_metadata_nonempty; eassumption).
  reflexivity.
Qed.

(** One iteration of the loop on a rejected candidate. *)
Lemma select_loop_reject order api limit max_size_gb model_id rest selected :
  evaluate order api max_size_gb model_id = None →
  select_loop order api limit max_size_gb (model_id :: rest) selected =
  select_loop order api limit max_size_gb rest selected.
Proof.
  unfold evaluate. intros H. simpl.
  destruct (is_compatible_model_returns order api model_id max_size_gb) as [r Hr].
  rewrite Hr in *. simpl.
  destruct r as [[|] [m|]]; try reflexivity. discriminate.
Qed.

Lemma accepted_cons order api max_size_gb model_id rest :
  accepted order api max_size_gb (model_id :: rest) =
  match evaluate order api max_size_gb model_id with
  | Some metadata => metadata :: accepted order api max_size_gb rest
  | None => accepted order api max_size_gb rest
  end.
Proof. reflexivity. Qed.

(** With a positive limit not yet reached, the loop returns the first
    [limit] entries of what was selected so far followed by the accepted
    candidates of the rest of the stream. *)
Lemma select_loop_take order api limit max_size_gb models :
  ∀ selected,
    (Z.of_nat (length selected) < limit)%Z →
    select_loop order api limit max_size_gb models selected =
    Ok (take (Z.to_nat limit) (selected ++ accepted order api max_size_gb models)).
Proof.
  induction models as [|model_id rest IH]; intros selected Hlt.
  - simpl. rewrite app_nil_r, take_ge by lia. reflexivity.
  - rewrite accepted_cons.
    destruct (evaluate order api max_size_gb model_id) as [metadata|] eqn:Hev.
    + apply evaluate_Some in Hev.
      rewrite (select_loop_accept _ _ _ _ _ _ _ _ Hev).
      replace (selected ++ metadata :: accepted order api max_size_gb rest)
        with ((selected ++ [metadata]) ++ accepted order api max_size_gb rest)
        by (rewrite <- app_assoc; reflexivity).
      destruct (Z.of_nat (length (selected ++ [metadata])) >=? limit)%Z eqn:Hge.
      * apply Z.geb_le in Hge.
        rewrite take_app_length'; [reflexivity|].
        rewrite length_app in *. simpl in *. lia.
      * rewrite Z.geb_leb in Hge. apply Z.leb_gt in Hge.
        apply IH. lia.
    + rewrite select_loop_reject by assumption. apply IH. assumption.
Qed.

Lemma select_loop_returns order api limit max_size_gb models :
  ∀ selected, returns (select_loop order api limit max_size_gb models selected).
Proof.
  induction models as [|model_id rest IH]; intros selected.
  - eexists; reflexivity.
  - destruct (evaluate order api max_size_gb model_id) as [metadata|] eqn:Hev.
    + apply evaluate_Some in Hev.
      rewrite (select_loop_accept _ _ _ _ _ _ _ _ Hev).
      destruct (_ >=? _)%Z; [eexists; reflexivity | apply IH].
    + rewrite select_loop_reject by assumption. apply IH.
Qed.

(** ** The selector: bound, stream exhaustion, errors *)

(** C7. For every positive limit and every candidate stream the selector
    returns normally; its result is the first [limit] accepted descriptors
    in rank order, so its length is at most [limit], and when the length
    is below [limit] the stream was exhausted: the result holds the
    descriptors of all accepted candidates of the whole stream. *)
Theorem select_top_models_bounded order api limit max_size_gb sort_by task :
  (0 < limit)%Z →
  let stream := list_models api task sort_by (limit * 10) in
  ∃ result,
    select_top_models order api limit max_size_gb sort_by task = Ok result ∧
    (Z.of_nat (length result) ≤ limit)%Z ∧
    ((Z.of_nat (length result) < limit)%Z →
       result = accepted order api max_size_gb stream) ∧
    result = take (Z.to_nat limit) (accepted order api max_size_gb stream).
Proof.
  intros Hpos stream.
  exists (take (Z.to_nat limit) (accepted order api max_size_gb stream)).
  split; [|split; [|split]].
  - unfold select_top_models. fold stream.
    rewrite select_loop_take by (simpl; lia). reflexivity.
  - rewrite length_take. lia.
  - rewrite length_take. intros Hshort.
    rewrite take_ge by lia. reflexivity.
  - reflexivity.
Qed.

Lemma select_top_models_bounded_witness :
  (0 < 2)%Z ∧
  ∃ result,
    select_top_models Sample.order_a (Sample.api Sample.stream3) 2 20
      "downloads" (Some "text-generation") = Ok result ∧
    (Z.of_nat (length result) ≤ 2)%Z ∧
    ((Z.of_nat (length result) < 2)%Z →
       result = accepted Sample.order_a (Sample.api Sample.stream3) 20 Sample.stream3) ∧
    result = take (Z.to_nat 2)
               (accepted Sample.order_a (Sample.api Sample.stream3) 20 Sample.stream3).
Proof.
  split; [lia|].
  apply (select_top_models_bounded Sample.order_a (Sample.api Sample.stream3)
           2 20 "downloads" (Some "text-generation")).
  lia.
Defined.

(** The end-to-end example of the specification: of three candidates, one
    without [config.json], one above the ceiling and one that passes, a
    selection with limit 2 returns the single passing one. *)
Example select_top_models_end_to_end :
  select_top_models Sample.order_a (Sample.api Sample.stream3) 2 20
    "downloads" (Some "text-generation") = Ok [Sample.descriptor_qwen "qwen2"].
Proof. vm_compute. reflexivity. Qed.

(** C9. With a limit of zero (or below) and a stream whose first candidate
    is accepted, the selector raises nothing and returns exactly that one
    descriptor: the length test runs only after the append, so the result
    is longer than the limit. *)
Theorem select_top_models_nonpositive_limit
    order api limit max_size_gb sort_by task model_id rest metadata :
  (limit ≤ 0)%Z →
  list_models api task sort_by (limit * 10) = model_id :: rest →
  is_compatible_model order api model_id max_size_gb = Ok (true, Some metadata) →
  select_top_models order api limit max_size_gb sort_by task = Ok [metadata] ∧
  (limit < Z.of_nat (length [metadata]))%Z.
Proof.
  intros Hlimit Hstream Hacc. split; [|simpl; lia].
  unfold select_top_models. rewrite Hstream.
  rewrite (select_loop_accept _ _ _ _ _ _ _ _ Hacc).
  destruct (_ >=? _)%Z eqn:Hge; [reflexivity|].
  rewrite Z.geb_leb in Hge. apply Z.leb_gt in Hge. simpl in Hge. lia.
Qed.

Lemma select_top_models_nonpositive_limit_witness :
  select_top_models Sample.order_a (Sample.api ["Qwen/Qwen2-7B-Instruct"]) 0 20
    "downloads" (Some "text-generation") = Ok [Sample.descriptor_qwen "qwen2"] ∧
  (0 < Z.of_nat (length [Sample.descriptor_qwen "qwen2"]))%Z.
Proof.
  apply (select_top_models_nonpositive_limit Sample.order_a
           (Sample.api ["Qwen/Qwen2-7B-Instruct"]) 0 20 "downloads"
           (Some "text-generation") "Qwen/Qwen2-7B-Instruct" []).
  - lia.
  - reflexivity.
  - vm_compute. reflexivity.
Defined.

(** Malformed metadata does raise inside a check, and the check absorbs it. *)
Example malformed_listing_is_absorbed :
  has_config_json_body Sample.info_malformed = Raise TypeError ∧
  has_config_json Sample.info_malformed = Ok None ∧
  is_compatible_model Sample.order_a (Sample.api []) "acme/broken" 20 = Ok (false, None) ∧
  is_compatible_model Sample.order_a (Sample.api []) "acme/unreachable" 20 = Ok (false, None).
Proof. repeat split; vm_compute; reflexivity. Qed.

(** C6. The evaluator never raises: for every candidate, whatever the hub
    client returns or raises, it answers either a rejection
    [(False, None)] or an acceptance with a descriptor; each of its checks
    returns a value ([None] after an internal exception); and the
    selection run over any stream returns normally. *)
Theorem evaluator_never_raises order api model_id max_size_gb :
  (is_compatible_model order api model_id max_size_gb = Ok (false, None) ∨
   ∃ metadata,
     is_compatible_model order api model_id max_size_gb = Ok (true, Some metadata)) ∧
  (∀ info,
     returns (has_config_json info) ∧ returns (get_model_format info) ∧
     returns (get_model_size_gb info) ∧ returns (detect_family order info model_id)) ∧
  (∀ limit sort_by task,
     returns (select_top_models order api limit max_size_gb sort_by task)).
Proof.
  split; [|split].
  - destruct (is_compatible_model_returns order api model_id max_size_gb) as [r Hr].
    destruct (is_compatible_model_inv _ _ _ _ _ Hr)
      as [-> | (info & fmt & sz & fam & dl & lk & _ & _ & _ & _ & _ & _ & ->)].
    + left. assumption.
    + right. eexists. eassumption.
  - intros info. repeat split.
    + apply has_config_json_returns.
    + apply get_model_format_returns.
    + apply get_model_size_gb_returns.
    + apply detect_family_returns.
  - intros limit sort_by task. apply select_loop_returns.
Qed.

(** ** The descriptor's fields *)

Section MetadataFields.

Variables (model_id : string) (family : pyval) (fmt : string)
  (param_size : option string) (size_gb : option Q) (downloads likes : pyval).

Lemma metadata_family :
  make_metadata model_id family fmt param_size size_gb downloads likes !! "family"
  = Some (py_or family (PyStr "unknown")).
Proof. reflexivity. Qed.

Lemma metadata_format :
  make_metadata model_id family fmt param_size size_gb downloads likes !! "format"
  = Some (PyStr fmt).
Proof. reflexivity. Qed.

Lemma metadata_param_size :
  make_metadata model_id family fmt param_size size_gb downloads likes !! "param_size"
  = Some (PyStr (or_str param_size "unknown")).
Proof. reflexivity. Qed.

Lemma metadata_size_gb :
  make_metadata model_id family fmt param_size size_gb downloads likes !! "size_gb"
  = Some (rounded_size size_gb).
Proof. reflexivity. Qed.

(** Every field the validator requires is a key of the dict literal. *)
Lemma metadata_complete :
  complete (make_metadata model_id family fmt param_size size_gb downloads likes).
Proof. repeat constructor; eexists; reflexivity. Qed.

End MetadataFields.

(** ** Rounding *)

Lemma round_half_even_upper (x : Q) :
  (inject_Z (round_half_even x) <= x + (1 # 2))%Q.
Proof.
  destruct x as [n d]. unfold round_half_even, Qle, Qplus, inject_Z. simpl.
  pose proof (Z.div_mod n (Zpos d) ltac:(lia)) as Hdm.
  pose proof (Z.mod_pos_bound n (Zpos d) ltac:(lia)) as Hb.
  set (fl := (n / Zpos d)%Z) in *. set (r := (n mod Zpos d)%Z) in *.
  rewrite Pos2Z.inj_mul.
  destruct (Z.compare_spec (2 * r) (Zpos d)) as [He|Hl|Hg];
    [destruct (Z.even fl)| |]; nia.
Qed.

Lemma round_half_even_lower (x : Q) :
  (x - (1 # 2) <= inject_Z (round_half_even x))%Q.
Proof.
  destruct x as [n d]. unfold round_half_even, Qle, Qminus, Qplus, Qopp, inject_Z. simpl.
  pose proof (Z.div_mod n (Zpos d) ltac:(lia)) as Hdm.
  pose proof (Z.mod_pos_bound n (Zpos d) ltac:(lia)) as Hb.
  set (fl := (n / Zpos d)%Z) in *. set (r := (n mod Zpos d)%Z) in *.
  rewrite Pos2Z.inj_mul.
  destruct (Z.compare_spec (2 * r) (Zpos d)) as [He|Hl|Hg];
    [destruct (Z.even fl)| |]; nia.
Qed.

Lemma round2_scaled (q : Q) :
  (round2 q == inject_Z (round_half_even (q * 100)) * (1 # 100))%Q.
Proof. unfold round2, Qeq, Qmult, inject_Z. simpl. lia. Qed.

(** [round(x, 2)] moves [x] by at most half a hundredth. *)
Lemma round2_upper (q : Q) : (round2 q <= q + (1 # 200))%Q.
Proof.
  rewrite round2_scaled.
  pose proof (round_half_even_upper (q * 100)) as H.
  apply (Qmult_le_compat_r _ _ (1 # 100)) in H; [|discriminate].
  eapply Qle_trans; [exact H|].
  apply Qle_lteq. right. field.
Qed.

Lemma round2_lower (q : Q) : (q - (1 # 200) <= round2 q)%Q.
Proof.
  rewrite round2_scaled.
  pose proof (round_half_even_lower (q * 100)) as H.
  apply (Qmult_le_compat_r _ _ (1 # 100)) in H; [|discriminate].
  eapply Qle_trans; [|exact H].
  apply Qle_lteq. right. field.
Qed.

(** ** Size ceiling *)

Lemma too_large_false_le (q max_size_gb : Q) :
  too_large (Some q) max_size_gb = false → Qeq_bool q 0 = false →
  (q <= max_size_gb)%Q.
Proof.
  unfold too_large. intros H Hnz. rewrite Hnz in H. simpl in H.
  apply negb_false_iff in H. apply Qle_bool_iff. assumption.
Qed.

Lemma too_large_true (q max_size_gb : Q) :
  (0 <= max_size_gb)%Q ∨ ¬ (q == 0)%Q → (max_size_gb < q)%Q →
  too_large (Some q) max_size_gb = true.
Proof.
  intros Hobt Hgt. unfold too_large. apply andb_true_iff. split.
  - apply negb_true_iff. destruct (Qeq_bool q 0) eqn:E; [|reflexivity].
    apply Qeq_bool_iff in E. destruct Hobt as [Hmax | Hnz]; [|contradiction].
    rewrite E in Hgt. exfalso. eapply Qlt_not_le; eassumption.
  - apply negb_true_iff. destruct (Qle_bool q max_size_gb) eqn:E; [|reflexivity].
    apply Qle_bool_iff in E. exfalso. eapply Qlt_not_le; eassumption.
Qed.

(** C5. A descriptor built under the ceiling [max_size_gb] has a
    [size_gb] that is null or a number at most [max_size_gb] up to the
    rounding tolerance 0.01; and a candidate whose total size was obtained
    (non-zero, or any total when the ceiling is not negative) and exceeds
    the ceiling is rejected, so no descriptor is built for it. *)
Theorem size_gb_within_ceiling order api model_id max_size_gb :
  (∀ metadata,
     is_compatible_model order api model_id max_size_gb = Ok (true, Some metadata) →
     metadata !! "size_gb" = Some PyNone ∨
     ∃ s, metadata !! "size_gb" = Some (PyFloat s) ∧
          (s <= max_size_gb + (1 # 100))%Q) ∧
  (∀ info total_gb,
     model_info api model_id = Ok info →
     get_model_size_gb info = Ok (Some total_gb) →
     (0 <= max_size_gb)%Q ∨ ¬ (total_gb == 0)%Q →
     (max_size_gb < total_gb)%Q →
     is_compatible_model order api model_id max_size_gb = Ok (false, None)).
Proof.
  split.
  - intros metadata H. apply is_compatible_model_inv in H.
    destruct H as [H | (info & fmt & sz & fam & dl & lk & _ & _ & _ & _ & Hlarge & _ & H)];
      [discriminate|].
    injection H as ->. rewrite metadata_size_gb.
    destruct sz as [q|]; simpl; [|left; reflexivity].
    destruct (Qeq_bool q 0) eqn:Hz; simpl; [left; reflexivity|].
    right. exists (round2 q). split; [reflexivity|].
    pose proof (too_large_false_le _ _ Hlarge Hz) as Hle.
    eapply Qle_trans; [apply round2_upper|].
    apply Qplus_le_compat; [assumption | discriminate].
  - intros info total_gb Hinfo Hsize Hobt Hgt.
    unfold is_compatible_model, rejected. rewrite Hinfo.
    destruct (has_config_json_returns info) as [c ->]. simpl.
    destruct (negb (default false c)); [reflexivity|].
    destruct (get_model_format_returns info) as [f ->]. simpl.
    destruct f as [fmt|]; [|reflexivity].
    destruct (String.eqb fmt ""); [reflexivity|].
    rewrite Hsize. unfold mbind, result_bind.
    rewrite too_large_true by assumption. reflexivity.
Qed.

Lemma size_gb_within_ceiling_witness :
  (Sample.descriptor_qwen "qwen2" !! "size_gb" = Some PyNone ∨
   ∃ s, Sample.descriptor_qwen "qwen2" !! "size_gb" = Some (PyFloat s) ∧
        (s <= 20 + (1 # 100))%Q) ∧
  is_compatible_model Sample.order_a (Sample.api []) "acme/llama-70b" 20 = Ok (false, None).
Proof.
  split.
  - apply (proj1 (size_gb_within_ceiling Sample.order_a (Sample.api [])
                    "Qwen/Qwen2-7B-Instruct" 20)).
    vm_compute. reflexivity.
  - apply (proj2 (size_gb_within_ceiling Sample.order_a (Sample.api [])
                    "acme/llama-70b" 20) Sample.info_large
                 (70000000650 # 1073741824)).
    + reflexivity.
    + vm_compute. reflexivity.
    + left. discriminate.
    + reflexivity.
Defined.

(** ** Format detection *)

Lemma file_format_emitted filename fmt :
  file_format filename = Some fmt → fmt ∈ emitted_formats.
Proof.
  unfold file_format, emitted_formats.
  repeat (match goal with
          | |- context [if ?c then _ else _] => destruct c
          end);
    intros H; inversion H; subst; set_solver.
Qed.

Lemma format_loop_emitted files fmt :
  format_loop files = Ok (Some fmt) → fmt ∈ emitted_formats.
Proof.
  induction files as [|file rest IH]; simpl; intros H; [discriminate|].
  inv_bind H. inv_bind H.
  destruct (file_format a0) as [f|] eqn:Hf.
  - injection H as ->. eapply file_format_emitted; eassumption.
  - apply IH; assumption.
Qed.

Lemma get_model_format_emitted info fmt :
  get_model_format info = Ok (Some fmt) → fmt ∈ emitted_formats.
Proof.
  unfold get_model_format, try_except.
  destruct (get_model_format_body info) as [o|e] eqn:Hbody; [|discriminate].
  intros H. injection H as ->.
  unfold get_model_format_body in Hbody.
  inv_bind Hbody. destruct (negb a); [discriminate|].
  inv_bind Hbody. inv_bind Hbody.
  eapply format_loop_emitted; eassumption.
Qed.

(** A name ending in [.pth] ends in none of the suffixes tested earlier. *)
Lemma file_format_pth filename :
  endswith filename ".pth" = true → file_format filename = Some "pt".
Proof.
  unfold file_format, endswith.
  generalize (srev filename) as r. intros r.
  change (srev ".pth") with "htp.".
  change (srev ".safetensors") with "srosnetefas.".
  change (srev ".gguf") with "fugg.".
  change (srev ".onnx") with "xnno.".
  change (srev ".bin") with "nib.".
  change (srev ".pt") with "tp.".
  destruct r as [|c r]; cbn [startswith]; [discriminate|].
  destruct (Ascii.eqb_spec "h" c) as [<-|]; [|discriminate].
  simpl. intros ->. rewrite ?orb_true_r. reflexivity.
Qed.

(** C10. The [format] of every descriptor is one of [safetensors], [gguf],
    [onnx], [bin], [pt]; it is never [pth], although [pth] is listed in
    [SUPPORTED_FORMATS]: a file name ending in [.pth] is classified
    [pt]. *)
Theorem format_field_values order api model_id max_size_gb metadata :
  is_compatible_model order api model_id max_size_gb = Ok (true, Some metadata) →
  (∃ fmt, metadata !! "format" = Some (PyStr fmt) ∧
          fmt ∈ ["safetensors"; "gguf"; "onnx"; "bin"; "pt"] ∧ fmt ≠ "pth") ∧
  "pth" ∈ SUPPORTED_FORMATS ∧
  (∀ filename, endswith filename ".pth" = true → file_format filename = Some "pt").
Proof.
  intros H. apply is_compatible_model_inv in H.
  destruct H as [H | (info & fmt & sz & fam & dl & lk & _ & _ & Hfmt & _ & _ & _ & H)];
    [discriminate|].
  injection H as ->. split; [|split].
  - exists fmt. rewrite metadata_format. split; [reflexivity|].
    apply get_model_format_emitted in Hfmt. split; [exact Hfmt|].
    intros ->. unfold emitted_formats in Hfmt.
    rewrite !elem_of_cons, elem_of_nil in Hfmt. intuition discriminate.
  - unfold SUPPORTED_FORMATS. set_solver.
  - apply file_format_pth.
Qed.

Lemma format_field_values_witness :
  (∃ fmt, Sample.descriptor_qwen "qwen2" !! "format" = Some (PyStr fmt) ∧
          fmt ∈ ["safetensors"; "gguf"; "onnx"; "bin"; "pt"] ∧ fmt ≠ "pth") ∧
  "pth" ∈ SUPPORTED_FORMATS ∧
  (∀ filename, endswith filename ".pth" = true → file_format filename = Some "pt").
Proof.
  apply (format_field_values Sample.order_a (Sample.api [])
           "Qwen/Qwen2-7B-Instruct" 20).
  vm_compute. reflexivity.
Defined.

Lemma getattr_file_obj rfilename attrs :
  getattr (file_obj rfilename attrs) "rfilename" = Ok (PyStr rfilename).
Proof. unfold file_obj, getattr. rewrite lookup_insert_eq. reflexivity. Qed.

Lemma format_loop_listing (files : list (string * gmap string pyval)) :
  format_loop ((λ f, file_obj f.1 f.2) <$> files) =
  Ok (head (omap (λ f, file_format (lower f.1)) files)).
Proof.
  induction files as [|[name attrs] rest IH]; [reflexivity|].
  rewrite fmap_cons. cbn [format_loop fst snd].
  rewrite getattr_file_obj. cbn [mbind result_bind str_lower].
  change (omap ?g ((name, attrs) :: rest))
    with (match g (name, attrs) with
          | Some y => y :: omap g rest
          | None => omap g rest
          end).
  cbn [fst].
  destruct (file_format (lower name)) as [fmt|]; [reflexivity | exact IH].
Qed.

Lemma get_model_format_listing files attrs :
  get_model_format (listing_info files attrs) =
  Ok (head (omap (λ f, file_format (lower f.1)) files)).
Proof.
  unfold get_model_format, get_model_format_body, has_truthy, listing_info,
    hasattr, getattr.
  rewrite lookup_insert_eq. rewrite bool_decide_true by eauto.
  cbn [mbind result_bind mret result_ret].
  destruct files as [|f rest]; [reflexivity|].
  pose proof (format_loop_listing (f :: rest)) as Hloop.
  rewrite fmap_cons in *. cbn [truthy negb iter mbind result_bind].
  rewrite Hloop. reflexivity.
Qed.

(** C1, as the code has it.  On a well-formed listing, format detection
    answers with the format of the first file, in listing order, whose
    lower-cased name the suffix tests recognise; so a listing in which a
    [.safetensors] file comes before every other recognised file is
    classified [safetensors], whatever follows it. *)
Theorem get_model_format_first_match :
  (∀ files attrs,
     get_model_format (listing_info files attrs) =
     Ok (head (omap (λ f, file_format (lower f.1)) files))) ∧
  (∀ before name a after attrs,
     Forall (λ f, file_format (lower f.1) = None) before →
     endswith (lower name) ".safetensors" = true →
     get_model_format (listing_info (before ++ (name, a) :: after) attrs) =
     Ok (Some "safetensors")).
Proof.
  split; [apply get_model_format_listing|].
  intros before name a after attrs Hbefore Hname.
  rewrite get_model_format_listing. f_equal.
  induction Hbefore as [|f before Hf _ IH].
  - simpl. unfold file_format. rewrite Hname. reflexivity.
  - simpl. rewrite Hf. exact IH.
Qed.

Lemma get_model_format_first_match_witness :
  get_model_format Sample.info_safetensors_first = Ok (Some "safetensors").
Proof.
  apply (proj2 get_model_format_first_match
           [Sample.file "config.json" 600] "model.safetensors"
           {["size" := PyInt 500000000]}
           [Sample.file "pytorch_model.bin" 500000000] (Sample.popularity 50 1)).
  - repeat constructor.
  - reflexivity.
Defined.

(** C1 as stated fails: a listing that holds both a [.safetensors] file and
    a [pytorch_model.bin] is classified [bin] when the [.bin] is listed
    first, and [safetensors] when the two files are swapped. *)
Lemma format_priority_counterexample :
  file_format (lower "model.safetensors") = Some "safetensors" ∧
  file_format (lower "pytorch_model.bin") = Some "bin" ∧
  Sample.info_bin_first =
    listing_info [Sample.file "config.json" 600;
                  Sample.file "pytorch_model.bin" 500000000;
                  Sample.file "model.safetensors" 500000000]
                 (Sample.popularity 50 1) ∧
  get_model_format Sample.info_bin_first = Ok (Some "bin") ∧
  get_model_format Sample.info_safetensors_first = Ok (Some "safetensors").
Proof. repeat split; vm_compute; reflexivity. Qed.

(** ** Parameter-size extraction *)

Lemma lower_ascii_not_BM c : Re.one_of "B" "M" (lower_ascii c) = false.
Proof. destruct c as [[] [] [] [] [] [] [] []]; reflexivity. Qed.

Lemma lower_no_BM s : no_BM (lower s).
Proof.
  induction s as [|c s IH]; simpl; [exact I|].
  split; [apply lower_ascii_not_BM | exact IH].
Qed.

Lemma star_dead {A} p s (k : string → option A) :
  no_BM s → (∀ rest, no_BM rest → k rest = None) → Re.star p s k = None.
Proof.
  intros Hs Hk. induction s as [|c s IH]; simpl.
  - apply Hk. exact Hs.
  - destruct Hs as [Hc Hs'].
    rewrite (Hk (String c s)) by (split; assumption).
    destruct (p c); [|reflexivity].
    rewrite IH by assumption. reflexivity.
Qed.

Lemma matches_dead {A} r :
  ∀ s cap (k : string → option string → option A),
    no_BM s → dead k → Re.matches r s cap k = None.
Proof.
  induction r as [p|p|p|p|r1 IH1 r2 IH2|r IH]; intros s cap k Hs Hk; simpl.
  - destruct s as [|c s]; [reflexivity|]. destruct Hs as [_ Hs].
    destruct (p c); [apply Hk; assumption | reflexivity].
  - destruct s as [|c s]; [apply Hk; assumption|].
    rewrite (Hk (String c s)) by assumption. destruct Hs as [_ Hs].
    destruct (p c); [|reflexivity]. rewrite Hk by assumption. reflexivity.
  - apply star_dead; [assumption|]. intros rest Hrest. apply Hk. assumption.
  - destruct s as [|c s]; [reflexivity|]. destruct Hs as [_ Hs].
    destruct (p c); [|reflexivity].
    apply star_dead; [assumption|]. intros rest Hrest. apply Hk. assumption.
  - apply IH1; [assumption|]. intros rest cap' Hrest. apply IH2; assumption.
  - apply IH; [assumption|]. intros rest cap' Hrest. apply Hk. assumption.
Qed.

Lemma matches_ends_in_BM {A} r :
  ends_in_BM r →
  ∀ s cap (k : string → option string → option A),
    no_BM s → Re.matches r s cap k = None.
Proof.
  induction r as [p|p|p|p|r1 IH1 r2 IH2|r IH]; simpl; intros Hr s cap k Hs;
    try contradiction.
  - subst p. destruct s as [|c s]; [reflexivity|].
    destruct Hs as [-> _]. reflexivity.
  - apply matches_dead; [assumption|].
    intros rest cap' Hrest. apply IH2; assumption.
  - apply IH; assumption.
Qed.

Lemma pattern_upper_match_here s : no_BM s → Re.match_here pattern_upper s = None.
Proof.
  intros Hs. unfold Re.match_here.
  apply matches_ends_in_BM; [reflexivity | assumption].
Qed.

Lemma pattern_upper_search s : no_BM s → Re.search pattern_upper s = None.
Proof.
  induction s as [|c s IH]; intros Hs.
  - change (Re.first_some (Re.match_here pattern_upper "") None = None).
    rewrite pattern_upper_match_here by exact Hs. reflexivity.
  - change (Re.first_some (Re.match_here pattern_upper (String c s))
              (Re.search pattern_upper s) = None).
    rewrite pattern_upper_match_here by exact Hs. destruct Hs as [_ Hs].
    apply IH. assumption.
Qed.

(** The first pattern asks for an upper-case [B] or [M] in a text that was
    lower-cased just before: it never matches, and only the second pattern,
    which knows [b] alone, decides. *)
Lemma extract_param_size_second_pattern model_id :
  extract_param_size model_id =
  match Re.search pattern_lower (lower model_id) with
  | Some g => Some (normalize_size (default "" g))
  | None => None
  end.
Proof.
  unfold extract_param_size, patterns. cbn [search_patterns].
  rewrite pattern_upper_search by apply lower_no_BM. reflexivity.
Qed.

(** The examples of the specification. *)
Example extract_param_size_examples :
  extract_param_size "Llama-7B-Instruct" = Some "7B" ∧
  extract_param_size "Qwen2-0.5B" = Some "0.5B" ∧
  extract_param_size "phi-1.5" = None ∧
  or_str (extract_param_size "phi-1.5") "unknown" = "unknown".
Proof. repeat split; vm_compute; reflexivity. Qed.

(** C3 at an identifier whose size is given in millions: the digits are
    followed by [M], for which the specification asks ["350M"]; the
    function returns [None], so the descriptor says ["unknown"], while a
    [B] in the same place is found. *)
Theorem extract_param_size_misses_M :
  extract_param_size "facebook/opt-350M" = None ∧
  or_str (extract_param_size "facebook/opt-350M") "unknown" = "unknown" ∧
  extract_param_size "facebook/opt-350m" = None ∧
  extract_param_size "facebook/opt-350B" = Some "350B".
Proof. repeat split; vm_compute; reflexivity. Qed.

(** ** Family detection *)

Lemma detect_family_unfold order info model_id :
  detect_family order info model_id =
  match family_from_config info with
  | Raise _ => Ok PyNone
  | Ok (Some model_type) => Ok model_type
  | Ok None =>
      match family_from_tags info with
      | Raise _ => Ok PyNone
      | Ok (Some tag) => Ok tag
      | Ok None =>
          Ok (match first_family_in order (lower model_id) with
              | Some family => PyStr family
              | None => PyNone
              end)
      end
  end.
Proof.
  unfold detect_family, detect_family_body.
  destruct (family_from_config info) as [[x|]|e]; try reflexivity.
  cbn [mbind result_bind].
  destruct (family_from_tags info) as [[t|]|e]; try reflexivity.
  cbn [mbind result_bind].
  destruct (first_family_in order (lower model_id)); reflexivity.
Qed.

Lemma first_family_in_Some order name family :
  first_family_in order name = Some family →
  family ∈ order ∧ contains family name = true.
Proof.
  unfold first_family_in. intros H. apply find_some in H.
  destruct H as [Hin Hc]. split; [apply list_elem_of_In; exact Hin | exact Hc].
Qed.

Lemma first_family_in_None order name family :
  first_family_in order name = None → family ∈ order →
  contains family name = false.
Proof.
  unfold first_family_in. intros H Hin.
  apply (find_none _ _ H). apply list_elem_of_In. exact Hin.
Qed.

Lemma iteration_order_known order family :
  iteration_order order → (family ∈ order ↔ family ∈ KNOWN_FAMILIES).
Proof.
  unfold iteration_order. intros Hp. rewrite Hp. apply elem_of_elements.
Qed.

(** The name search of two runs: the same answer when at most one family
    occurs in the name, and otherwise two families that both occur in it. *)
Lemma first_family_in_two_orders o1 o2 name :
  iteration_order o1 → iteration_order o2 →
  (at_most_one_family name → first_family_in o1 name = first_family_in o2 name) ∧
  (first_family_in o1 name = first_family_in o2 name ∨
   ∃ f1 f2, first_family_in o1 name = Some f1 ∧ first_family_in o2 name = Some f2 ∧
            f1 ∈ KNOWN_FAMILIES ∧ f2 ∈ KNOWN_FAMILIES ∧
            contains f1 name = true ∧ contains f2 name = true).
Proof.
  intros H1 H2.
  destruct (first_family_in o1 name) as [f1|] eqn:E1;
    destruct (first_family_in o2 name) as [f2|] eqn:E2.
  - apply first_family_in_Some in E1 as [Hin1 Hc1].
    apply first_family_in_Some in E2 as [Hin2 Hc2].
    apply (iteration_order_known _ _ H1) in Hin1.
    apply (iteration_order_known _ _ H2) in Hin2.
    split.
    + intros Huniq. f_equal. apply Huniq; assumption.
    + right. exists f1, f2. repeat split; assumption.
  - apply first_family_in_Some in E1 as [Hin1 Hc1].
    apply (iteration_order_known _ _ H1) in Hin1.
    apply (iteration_order_known _ _ H2) in Hin1.
    rewrite (first_family_in_None _ _ _ E2 Hin1) in Hc1. discriminate.
  - apply first_family_in_Some in E2 as [Hin2 Hc2].
    apply (iteration_order_known _ _ H2) in Hin2.
    apply (iteration_order_known _ _ H1) in Hin2.
    rewrite (first_family_in_None _ _ _ E1 Hin2) in Hc2. discriminate.
  - split; [reflexivity | left; reflexivity].
Qed.

(** C4, as the code has it.  Two runs iterate the family set in orders
    [o1] and [o2].  Given the same metadata and identifier they detect the
    same family whenever the config's model type or a tag decides (or the
    lookup raises), or at most one known family name occurs in the
    lower-cased identifier.  In the remaining case each run answers with a
    known family that occurs in the identifier, not necessarily the same
    one. *)
Theorem detect_family_across_runs o1 o2 info model_id :
  iteration_order o1 → iteration_order o2 →
  (family_from_config info ≠ Ok None ∨ family_from_tags info ≠ Ok None ∨
   at_most_one_family (lower model_id) →
   detect_family o1 info model_id = detect_family o2 info model_id) ∧
  (detect_family o1 info model_id = detect_family o2 info model_id ∨
   ∃ f1 f2,
     detect_family o1 info model_id = Ok (PyStr f1) ∧
     detect_family o2 info model_id = Ok (PyStr f2) ∧
     f1 ∈ KNOWN_FAMILIES ∧ f2 ∈ KNOWN_FAMILIES ∧
     contains f1 (lower model_id) = true ∧ contains f2 (lower model_id) = true).
Proof.
  intros H1 H2. rewrite !detect_family_unfold.
  destruct (first_family_in_two_orders o1 o2 (lower model_id) H1 H2)
    as [Huniq Hboth].
  destruct (family_from_config info) as [[x|]|e];
    [split; [reflexivity | left; reflexivity] | |
     split; [reflexivity | left; reflexivity]].
  destruct (family_from_tags info) as [[t|]|e];
    [split; [reflexivity | left; reflexivity] | |
     split; [reflexivity | left; reflexivity]].
  split.
  - intros [Hc | [Ht | Hu]]; [congruence | congruence |].
    rewrite (Huniq Hu). reflexivity.
  - destruct Hboth as [-> | (f1 & f2 & -> & -> & Hrest)].
    + left. reflexivity.
    + right. exists f1, f2. repeat split; apply Hrest.
Qed.

Lemma detect_family_across_runs_witness :
  detect_family Sample.order_a Sample.info_no_sizes "facebook/opt-350M" =
  detect_family Sample.order_b Sample.info_no_sizes "facebook/opt-350M".
Proof.
  apply (proj1 (detect_family_across_runs Sample.order_a Sample.order_b
                  Sample.info_no_sizes "facebook/opt-350M"
                  (Permutation_refl _) (reverse_Permutation _))).
  left. vm_compute. discriminate.
Defined.

(** C4 as stated fails: the same candidate, whose identifier contains both
    [qwen] and [qwen2] and whose config and tags name no family, is given
    the family [qwen2] under one iteration order of the set and [qwen]
    under another. *)
Lemma detect_family_counterexample :
  iteration_order Sample.order_a ∧ iteration_order Sample.order_b ∧
  detect_family Sample.order_a Sample.info_qwen "Qwen/Qwen2-7B-Instruct" =
    Ok (PyStr "qwen2") ∧
  detect_family Sample.order_b Sample.info_qwen "Qwen/Qwen2-7B-Instruct" =
    Ok (PyStr "qwen").
Proof.
  split; [apply Permutation_refl|]. split; [apply reverse_Permutation|].
  split; vm_compute; reflexivity.
Qed.

(** ** Schema validation *)

Lemma check_fields_ok model fields :
  (check_fields model fields).2 = true ↔
  Forall (λ field, is_Some (model !! field)) fields.
Proof.
  induction fields as [|field rest IH]; simpl.
  - split; [constructor | reflexivity].
  - destruct (model !! field) as [value|] eqn:E.
    + destruct (check_fields model rest) as [log ok]. simpl in *.
      rewrite IH. split.
      * intros H. constructor; [rewrite E; eauto | exact H].
      * intros H. inversion H; assumption.
    + simpl. split; [discriminate|].
      intros H. inversion H as [|? ? [v Hv] _]. rewrite E in Hv. discriminate.
Qed.

Lemma check_fields_missing model fields :
  (check_fields model fields).2 = false →
  ∃ field, field ∈ fields ∧ model !! field = None ∧
           last (check_fields model fields).1 = Some (MissingField field).
Proof.
  induction fields as [|field rest IH]; simpl; [discriminate|].
  destruct (model !! field) as [value|] eqn:E.
  - destruct (check_fields model rest) as [log ok]. simpl in *.
    intros H. destruct (IH H) as (f & Hin & Hnone & Hlast).
    exists f. split; [right; exact Hin|]. split; [exact Hnone|].
    rewrite last_cons, Hlast. reflexivity.
  - intros _. exists field. split; [left|]. split; [exact E | reflexivity].
Qed.

Lemma validate_from_cons i model rest :
  validate_from i (model :: rest) =
  let header := Validating (i + 1) (default (PyStr "UNKNOWN") (model !! "id")) in
  let '(log, ok) := check_fields model required_fields in
  if ok then
    let '(log', r) := validate_from (S i) rest in
    (header :: log ++ size_line model :: log', r)
  else (header :: log, false).
Proof. reflexivity. Qed.

Lemma validate_from_ok i models :
  (validate_from i models).2 = true ↔ Forall complete models.
Proof.
  revert i. induction models as [|model rest IH]; intros i.
  - split; [constructor | reflexivity].
  - rewrite validate_from_cons.
    pose proof (check_fields_ok model required_fields) as Hok.
    destruct (check_fields model required_fields) as [log ok].
    cbv beta iota zeta. cbn [snd] in Hok.
    destruct ok.
    + specialize (IH (S i)).
      destruct (validate_from (S i) rest) as [log' r]. cbn [snd] in *.
      rewrite IH. split.
      * intros H. constructor; [apply Hok; reflexivity | exact H].
      * intros H. inversion H; assumption.
    + cbn [snd]. split; [discriminate|].
      intros H. inversion H as [|? ? Hc _]. apply Hok in Hc. discriminate.
Qed.

(** [return False] leaves both loops: what follows the first incomplete
    descriptor is neither read nor reported. *)
Lemma validate_from_stop i good bad rest :
  Forall complete good → ¬ complete bad →
  validate_from i (good ++ bad :: rest) = validate_from i (good ++ [bad]).
Proof.
  intros Hgood Hbad. revert i.
  induction Hgood as [|model good Hmodel _ IH]; intros i.
  - rewrite !app_nil_l, !validate_from_cons.
    pose proof (check_fields_ok bad required_fields) as Hok.
    destruct (check_fields bad required_fields) as [log ok]. cbn [snd] in Hok.
    destruct ok; [|reflexivity].
    exfalso. apply Hbad. apply Hok. reflexivity.
  - rewrite <- !app_comm_cons, !validate_from_cons.
    destruct (check_fields model required_fields) as [log ok].
    destruct ok; [|reflexivity].
    cbv beta iota zeta. rewrite IH. reflexivity.
Qed.

Lemma validate_from_last_missing i good bad :
  Forall complete good → ¬ complete bad →
  ∃ field, field ∈ required_fields ∧ bad !! field = None ∧
           last (validate_from i (good ++ [bad])).1 = Some (MissingField field).
Proof.
  intros Hgood Hbad. revert i.
  induction Hgood as [|model good Hmodel _ IH]; intros i.
  - rewrite app_nil_l, validate_from_cons.
    pose proof (check_fields_ok bad required_fields) as Hok.
    pose proof (check_fields_missing bad required_fields) as Hmiss.
    destruct (check_fields bad required_fields) as [log ok]. cbn [fst snd] in *.
    destruct ok; [exfalso; apply Hbad, Hok; reflexivity|].
    destruct (Hmiss eq_refl) as (f & Hin & Hnone & Hlast).
    exists f. split; [exact Hin|]. split; [exact Hnone|].
    cbv beta iota zeta. cbn [fst]. rewrite last_cons, Hlast. reflexivity.
  - rewrite <- app_comm_cons, validate_from_cons.
    pose proof (check_fields_ok model required_fields) as Hok.
    destruct (check_fields model required_fields) as [log ok]. cbn [snd] in Hok.
    destruct ok; [|apply Hok in Hmodel; discriminate].
    destruct (IH (S i)) as (f & Hin & Hnone & Hlast).
    destruct (validate_from (S i) (good ++ [bad])) as [log' r]. cbn [fst] in *.
    exists f. split; [exact Hin|]. split; [exact Hnone|].
    cbv beta iota zeta. cbn [fst].
    rewrite last_cons, last_app, last_cons, Hlast. reflexivity.
Qed.

Lemma check_fields_warning model fields field :
  Forall (λ f, is_Some (model !! f)) fields →
  field ∈ fields → field ∈ ["family"; "param_size"] →
  model !! field = Some (PyStr "unknown") →
  Warning field (PyStr "unknown") ∈ (check_fields model fields).1.
Proof.
  intros Hall Hin Hdeg Hval.
  induction Hall as [|f rest [v Hv] Hrest IH]; [inversion Hin|].
  simpl. rewrite Hv.
  destruct (check_fields model rest) as [log ok]. simpl in *.
  apply elem_of_cons in Hin as [<- | Hin].
  - rewrite Hval in Hv. injection Hv as <-. simpl.
    rewrite bool_decide_true by exact Hdeg. left.
  - right. apply IH. exact Hin.
Qed.

Lemma validate_from_warning i models model field :
  Forall complete models → model ∈ models →
  field ∈ ["family"; "param_size"] →
  model !! field = Some (PyStr "unknown") →
  Warning field (PyStr "unknown") ∈ (validate_from i models).1.
Proof.
  intros Hall Hin Hdeg Hval. revert i.
  induction Hall as [|m rest Hm Hrest IH]; intros i; [inversion Hin|].
  rewrite validate_from_cons.
  pose proof (check_fields_ok m required_fields) as Hok.
  pose proof (check_fields_warning m required_fields field Hm) as Hwarn.
  destruct (check_fields m required_fields) as [log ok]. cbn [fst snd] in *.
  destruct ok; [|apply Hok in Hm; discriminate].
  specialize (λ H, IH H (S i)).
  destruct (validate_from (S i) rest) as [log' r]. cbn [fst] in *.
  cbv beta iota zeta. cbn [fst].
  right. apply elem_of_app.
  apply elem_of_cons in Hin as [-> | Hin].
  - left. apply Hwarn; [|exact Hdeg | exact Hval].
    unfold required_fields.
    rewrite !elem_of_cons in Hdeg. rewrite !elem_of_cons.
    destruct Hdeg as [-> | [-> | H]]; [tauto | tauto | inversion H].
  - right. right. apply IH. exact Hin.
Qed.

Lemma incomplete_missing_field model :
  ¬ complete model ↔ ∃ field, field ∈ required_fields ∧ model !! field = None.
Proof.
  unfold complete. split.
  - intros H. apply not_Forall_Exists in H; [|intros f; apply _].
    apply Exists_exists in H as (field & Hin & Hnone).
    exists field. split; [exact Hin|]. apply eq_None_not_Some. exact Hnone.
  - intros (field & Hin & Hnone) Hall.
    rewrite Forall_forall in Hall. apply Hall in Hin.
    rewrite Hnone in Hin. destruct Hin; discriminate.
Qed.

Lemma complete_dec model : {complete model} + {¬ complete model}.
Proof. unfold complete. apply Forall_dec. intros f. apply _. Qed.

(** C8. Validation fails exactly when some descriptor lacks a required
    field; it fails at the first such descriptor, reporting the missing
    field last and never reading what follows, however valid; and
    ["unknown"] in [family] or [param_size] of a complete batch is
    reported as a warning while the batch passes. *)
Theorem validate_models_json_schema :
  (∀ models,
     (validate_models_json models).2 = false ↔
     ∃ model field,
       model ∈ models ∧ field ∈ required_fields ∧ model !! field = None) ∧
  (∀ good bad rest,
     Forall complete good → ¬ complete bad →
     validate_models_json (good ++ bad :: rest) =
       validate_models_json (good ++ [bad]) ∧
     (validate_models_json (good ++ bad :: rest)).2 = false ∧
     ∃ field,
       field ∈ required_fields ∧ bad !! field = None ∧
       last (validate_models_json (good ++ bad :: rest)).1 =
         Some (MissingField field)) ∧
  (∀ models model field,
     Forall complete models → model ∈ models →
     field ∈ ["family"; "param_size"] →
     model !! field = Some (PyStr "unknown") →
     (validate_models_json models).2 = true ∧
     Warning field (PyStr "unknown") ∈ (validate_models_json models).1).
Proof.
  unfold validate_models_json. split; [|split].
  - intros models. split.
    + intros Hfalse.
      assert (¬ Forall complete models) as Hnot.
      { intros Hall. apply (validate_from_ok 0) in Hall. congruence. }
      apply not_Forall_Exists in Hnot; [|intros m; apply complete_dec].
      apply Exists_exists in Hnot as (model & Hin & Hbad).
      apply incomplete_missing_field in Hbad as (field & Hf & Hnone).
      exists model, field. repeat split; assumption.
    + intros (model & field & Hin & Hf & Hnone).
      destruct (validate_from 0 models).2 eqn:E; [|reflexivity].
      apply validate_from_ok in E. rewrite Forall_forall in E.
      exfalso. apply (proj2 (incomplete_missing_field model)); eauto.
  - intros good bad rest Hgood Hbad.
    rewrite (validate_from_stop 0 good bad rest Hgood Hbad).
    split; [reflexivity|]. split.
    + destruct (validate_from 0 (good ++ [bad])).2 eqn:E; [|reflexivity].
      apply validate_from_ok in E. apply Forall_app in E as [_ E].
      inversion E; contradiction.
    + apply validate_from_last_missing; assumption.
  - intros models model field Hall Hin Hdeg Hval. split.
    + apply validate_from_ok. exact Hall.
    + apply validate_from_warning with (model := model); assumption.
Qed.

Lemma validate_models_json_schema_witness :
  (validate_models_json
     [Sample.descriptor_qwen "qwen2"; Sample.descriptor_missing;
      Sample.descriptor_opt]).2 = false ∧
  last (validate_models_json
          [Sample.descriptor_qwen "qwen2"; Sample.descriptor_missing;
           Sample.descriptor_opt]).1 = Some (MissingField "param_size") ∧
  (validate_models_json [Sample.descriptor_qwen "qwen2"; Sample.descriptor_opt]).2
    = true ∧
  Warning "param_size" (PyStr "unknown") ∈
    (validate_models_json [Sample.descriptor_qwen "qwen2"; Sample.descriptor_opt]).1.
Proof.
  destruct validate_models_json_schema as (_ & Hstop & Hwarn).
  assert (complete (Sample.descriptor_qwen "qwen2")) as Hq
    by (repeat constructor; vm_compute; eauto).
  assert (complete Sample.descriptor_opt) as Ho
    by (repeat constructor; vm_compute; eauto).
  assert (¬ complete Sample.descriptor_missing) as Hm.
  { apply incomplete_missing_field. exists "param_size".
    split; [unfold required_fields; repeat constructor | reflexivity]. }
  destruct (Hstop [Sample.descriptor_qwen "qwen2"] Sample.descriptor_missing
              [Sample.descriptor_opt] ltac:(constructor; [exact Hq | constructor]) Hm)
    as (_ & Hfalse & _).
  destruct (Hwarn [Sample.descriptor_qwen "qwen2"; Sample.descriptor_opt]
              Sample.descriptor_opt "param_size"
              ltac:(constructor; [exact Hq | constructor; [exact Ho | constructor]])
              ltac:(repeat constructor) ltac:(repeat constructor) eq_refl)
    as (Htrue & Hin).
  split; [exact Hfalse|]. split; [vm_compute; reflexivity|].
  split; [exact Htrue | exact Hin].
Defined.

(** ** Storage estimate *)

Lemma add_num_raise acc v e : add_num acc v = Raise e → e = TypeError.
Proof. destruct v; simpl; intros H; congruence. Qed.

Lemma sum_size_gb_raise models :
  ∀ total e, sum_size_gb models total = Raise e → e = TypeError.
Proof.
  induction models as [|m rest IH]; intros total e; simpl; [discriminate|].
  destruct (add_num total (default (PyInt 0) (m !! "size_gb"))) as [t|e'] eqn:E;
    simpl.
  - apply IH.
  - intros H. injection H as <-. eapply add_num_raise; eassumption.
Qed.

(** A descriptor whose [size_gb] is an explicit null makes the sum raise:
    [m.get('size_gb', 0)] falls back to 0 only when the key is absent. *)
Lemma sum_size_gb_null models :
  (∃ m, m ∈ models ∧ m !! "size_gb" = Some PyNone) →
  ∀ total, sum_size_gb models total = Raise TypeError.
Proof.
  intros (m & Hin & Hnull).
  induction models as [|m' rest IH]; intros total; [inversion Hin|].
  simpl. apply elem_of_cons in Hin as [<- | Hin].
  - rewrite Hnull. reflexivity.
  - destruct (add_num total (default (PyInt 0) (m' !! "size_gb"))) as [t|e] eqn:E;
      simpl.
    + apply IH. exact Hin.
    + f_equal. eapply add_num_raise; eassumption.
Qed.

Lemma storage_estimation_null models :
  (∃ m, m ∈ models ∧ m !! "size_gb" = Some PyNone) →
  storage_estimation models = Raise TypeError.
Proof.
  intros H. unfold storage_estimation.
  rewrite (sum_size_gb_null models H). reflexivity.
Qed.

Lemma sum_size_gb_numbers models :
  Forall size_absent_or_number models →
  ∀ total,
    sum_size_gb models total = Ok (fold_left (λ acc m, acc + size_of m)%Q models total).
Proof.
  induction 1 as [|m rest Hm _ IH]; intros total; simpl; [reflexivity|].
  unfold size_absent_or_number in Hm. unfold size_of at 2.
  destruct (m !! "size_gb") as [[]|]; try contradiction; simpl; apply IH.
Qed.

(** When every [size_gb] is a number or the key is absent, the estimate is
    the sum (absent counting as zero) and the sum times 1.1. *)
Lemma storage_estimation_numbers models :
  Forall size_absent_or_number models →
  storage_estimation models =
  let total := fold_left (λ acc m, acc + size_of m)%Q models 0%Q in
  Ok (total, (total * (11 # 10))%Q).
Proof.
  intros H. unfold storage_estimation.
  rewrite (sum_size_gb_numbers models H). reflexivity.
Qed.

(** C2 at a batch the selector itself produces: a candidate whose file
    sizes the hub does not report is accepted with [size_gb] null, the
    descriptor passes schema validation, and the storage estimate raises
    [TypeError] instead of counting the unknown size as zero. *)
Theorem storage_estimation_null_size :
  select_top_models Sample.order_a (Sample.api ["facebook/opt-350M"]) 3 5
    "downloads" (Some "text-generation") = Ok [Sample.descriptor_opt] ∧
  Sample.descriptor_opt !! "size_gb" = Some PyNone ∧
  (validate_models_json [Sample.descriptor_opt]).2 = true ∧
  storage_estimation [Sample.descriptor_opt] = Raise TypeError ∧
  storage_estimation [delete "size_gb" Sample.descriptor_opt] = Ok (0%Q, (0 * (11 # 10))%Q).
Proof. repeat split; vm_compute; reflexivity. Qed.

(** * Further properties of the evaluator *)

(** The evaluator unfolded: acceptance with a descriptor, and each of the
    values the descriptor is built from. *)
Lemma is_compatible_model_accepts order api model_id max_size_gb metadata :
  is_compatible_model order api model_id max_size_gb = Ok (true, Some metadata) ↔
  ∃ info fmt size_gb family downloads likes,
    model_info api model_id = Ok info ∧
    has_config_json info = Ok (Some true) ∧
    get_model_format info = Ok (Some fmt) ∧
    get_model_size_gb info = Ok size_gb ∧
    too_large size_gb max_size_gb = false ∧
    detect_family order info model_id = Ok family ∧
    attr_or_zero info "downloads" = Ok downloads ∧
    attr_or_zero info "likes" = Ok likes ∧
    metadata = make_metadata model_id family fmt (extract_param_size model_id)
                 size_gb downloads likes.
Proof.
  unfold is_compatible_model, rejected. split.
  - intros H.
    destruct (model_info api model_id) as [info|e] eqn:Hinfo; [|discriminate].
    inv_bind H. destruct a as [[|]|]; simpl in H; try discriminate.
    inv_bind H. destruct a as [fmt|]; try discriminate.
    destruct (String.eqb fmt ""); try discriminate.
    inv_bind H. destruct (too_large a max_size_gb) eqn:Hlarge; try discriminate.
    inv_bind H. inv_bind H. inv_bind H.
    exists info, fmt, a, a0, a1, a2.
    repeat split; try assumption. congruence.
  - intros (info & fmt & sz & fam & dl & lk & Hinfo & Hcfg & Hfmt & Hsz & Hlarge
            & Hfam & Hdl & Hlk & ->).
    rewrite Hinfo, Hcfg. cbn [mbind result_bind default negb].
    rewrite Hfmt. cbn [mbind result_bind].
    assert (String.eqb fmt "" = false) as ->.
    { apply get_model_format_emitted in Hfmt. unfold emitted_formats in Hfmt.
      rewrite !elem_of_cons, elem_of_nil in Hfmt.
      destruct Hfmt as [-> | [-> | [-> | [-> | [-> | []]]]]]; reflexivity. }
    rewrite Hsz. cbn [mbind result_bind]. rewrite Hlarge.
    rewrite Hfam. cbn [mbind result_bind].
    rewrite Hdl. cbn [mbind result_bind].
    rewrite Hlk. reflexivity.
Qed.

(** Acceptance criterion: a candidate is accepted exactly when its metadata
    can be fetched, it has a [config.json], a format is detected, and its
    size is not known to exceed the ceiling.  Family and parameter size
    never decide. *)
Theorem is_compatible_model_accepts_iff order api model_id max_size_gb :
  (∃ metadata,
     is_compatible_model order api model_id max_size_gb = Ok (true, Some metadata)) ↔
  (∃ info fmt size_gb,
     model_info api model_id = Ok info ∧
     has_config_json info = Ok (Some true) ∧
     get_model_format info = Ok (Some fmt) ∧
     get_model_size_gb info = Ok size_gb ∧
     too_large size_gb max_size_gb = false).
Proof.
  split.
  - intros [metadata H]. apply is_compatible_model_accepts in H.
    destruct H as (info & fmt & sz & fam & dl & lk & H1 & H2 & H3 & H4 & H5 & _).
    exists info, fmt, sz. repeat split; assumption.
  - intros (info & fmt & sz & Hinfo & Hcfg & Hfmt & Hsz & Hlarge).
    destruct (detect_family_returns order info model_id) as [fam Hfam].
    destruct (attr_or_zero_returns info "downloads") as [dl Hdl].
    destruct (attr_or_zero_returns info "likes") as [lk Hlk].
    eexists. apply is_compatible_model_accepts.
    exists info, fmt, sz, fam, dl, lk. repeat split; try eassumption.
Qed.

Lemma too_large_mono size_gb (m m' : Q) :
  (m <= m')%Q → too_large size_gb m = false → too_large size_gb m' = false.
Proof.
  unfold too_large. destruct size_gb as [q|]; [|reflexivity].
  intros Hle H. destruct (Qeq_bool q 0); [reflexivity|]. simpl in *.
  apply negb_false_iff in H. apply negb_false_iff.
  apply Qle_bool_iff in H. apply Qle_bool_iff.
  eapply Qle_trans; eassumption.
Qed.

(** Raising the ceiling never loses a candidate, and the descriptor does
    not depend on the ceiling. *)
Theorem is_compatible_model_ceiling_mono order api model_id m m' metadata :
  (m <= m')%Q →
  is_compatible_model order api model_id m = Ok (true, Some metadata) →
  is_compatible_model order api model_id m' = Ok (true, Some metadata).
Proof.
  intros Hle H. apply is_compatible_model_accepts in H.
  destruct H as (info & fmt & sz & fam & dl & lk & H1 & H2 & H3 & H4 & H5 & H).
  apply is_compatible_model_accepts.
  exists info, fmt, sz, fam, dl, lk.
  repeat split; try tauto. eapply too_large_mono; eassumption.
Qed.

Lemma is_compatible_model_ceiling_mono_witness :
  (20 <= 50)%Q ∧
  is_compatible_model Sample.order_a (Sample.api []) "Qwen/Qwen2-7B-Instruct" 50
  = Ok (true, Some (Sample.descriptor_qwen "qwen2")).
Proof.
  split; [discriminate|].
  apply (is_compatible_model_ceiling_mono Sample.order_a (Sample.api [])
           "Qwen/Qwen2-7B-Instruct" 20 50).
  - discriminate.
  - vm_compute. reflexivity.
Defined.

(** Shape of a descriptor: exactly the eight keys of the output contract,
    the candidate's own identifier, the constant architecture, a string
    parameter size, and popularity counters that fall back to 0 when the
    hub object lacks them. *)
Theorem descriptor_shape order api model_id max_size_gb metadata :
  is_compatible_model order api model_id max_size_gb = Ok (true, Some metadata) →
  dom metadata = descriptor_keys ∧
  metadata !! "id" = Some (PyStr model_id) ∧
  metadata !! "arch" = Some (PyStr "transformer") ∧
  (∃ p, metadata !! "param_size" = Some (PyStr p) ∧ p ≠ "") ∧
  ∃ info,
    model_info api model_id = Ok info ∧
    (∀ name, name = "downloads" ∨ name = "likes" →
       (hasattr info name = false → metadata !! name = Some (PyInt 0)) ∧
       (∀ v, getattr info name = Ok v → metadata !! name = Some v)).
Proof.
  intros H. apply is_compatible_model_accepts in H.
  destruct H as (info & fmt & sz & fam & dl & lk & Hinfo & _ & _ & _ & _ & _
                 & Hdl & Hlk & ->).
  split; [|split; [|split; [|split]]].
  - unfold make_metadata, descriptor_keys.
    rewrite !dom_insert_L, dom_empty_L. set_solver.
  - reflexivity.
  - reflexivity.
  - exists (or_str (extract_param_size model_id) "unknown").
    split; [reflexivity|].
    unfold or_str. destruct (extract_param_size model_id) as [s|]; [|discriminate].
    destruct (String.eqb_spec s ""); [discriminate | assumption].
  - exists info. split; [exact Hinfo|].
    unfold attr_or_zero in Hdl, Hlk.
    intros name [-> | ->]; split.
    + intros Hno. rewrite Hno in Hdl. injection Hdl as <-. reflexivity.
    + intros v Hv. unfold hasattr, getattr in *. destruct info; try discriminate.
      destruct (attrs !! "downloads") eqn:E; [|discriminate].
      rewrite bool_decide_true in Hdl by eauto.
      change (Some dl = Some v). congruence.
    + intros Hno. rewrite Hno in Hlk. injection Hlk as <-. reflexivity.
    + intros v Hv. unfold hasattr, getattr in *. destruct info; try discriminate.
      destruct (attrs !! "likes") eqn:E; [|discriminate].
      rewrite bool_decide_true in Hlk by eauto.
      change (Some lk = Some v). congruence.
Qed.

Lemma descriptor_shape_witness :
  dom (Sample.descriptor_qwen "qwen2") = descriptor_keys ∧
  Sample.descriptor_qwen "qwen2" !! "id" = Some (PyStr "Qwen/Qwen2-7B-Instruct").
Proof.
  destruct (descriptor_shape Sample.order_a (Sample.api [])
              "Qwen/Qwen2-7B-Instruct" 20 (Sample.descriptor_qwen "qwen2"))
    as (Hdom & Hid & _).
  - vm_compute. reflexivity.
  - split; assumption.
Defined.

(** ** Values of the family field *)

Lemma in_str_set_true v (K : gset string) :
  in_str_set v K = Ok true → ∃ s, v = PyStr s ∧ s ∈ K.
Proof.
  destruct v; simpl; intros H; try discriminate.
  injection H as H. apply bool_decide_eq_true in H. eauto.
Qed.

Lemma first_known_tag_Some tags tag :
  first_known_tag tags = Ok (Some tag) → ∃ s, tag = PyStr s ∧ s ∈ KNOWN_FAMILIES.
Proof.
  induction tags as [|t rest IH]; simpl; [discriminate|].
  destruct (in_str_set t KNOWN_FAMILIES) as [[|]|e] eqn:E; simpl;
    [|exact IH|discriminate].
  intros H. injection H as <-. apply in_str_set_true. exact E.
Qed.

Lemma family_from_config_Some info x :
  family_from_config info = Ok (Some x) → ∃ s, x = PyStr s ∧ s ∈ KNOWN_FAMILIES.
Proof.
  unfold family_from_config. intros H.
  inv_bind H. destruct a; [|discriminate].
  inv_bind H. inv_bind H.
  destruct (truthy a0); [|discriminate].
  destruct (in_str_set a0 KNOWN_FAMILIES) as [[|]|e] eqn:E; simpl in H;
    try discriminate.
  injection H as <-. apply in_str_set_true. exact E.
Qed.

Lemma family_from_tags_Some info x :
  family_from_tags info = Ok (Some x) → ∃ s, x = PyStr s ∧ s ∈ KNOWN_FAMILIES.
Proof.
  unfold family_from_tags. intros H.
  inv_bind H. destruct a; [|discriminate].
  inv_bind H. inv_bind H.
  eapply first_known_tag_Some. eassumption.
Qed.

Lemma detect_family_value order info model_id v :
  (∀ f, f ∈ order → f ∈ KNOWN_FAMILIES) →
  detect_family order info model_id = Ok v →
  v = PyNone ∨ ∃ s, v = PyStr s ∧ s ∈ KNOWN_FAMILIES.
Proof.
  intros Horder. rewrite detect_family_unfold.
  destruct (family_from_config info) as [[x|]|e] eqn:Hc.
  - intros H. injection H as <-. right. eapply family_from_config_Some; eassumption.
  - destruct (family_from_tags info) as [[t|]|e] eqn:Ht.
    + intros H. injection H as <-. right. eapply family_from_tags_Some; eassumption.
    + destruct (first_family_in order (lower model_id)) as [f|] eqn:Hf;
        intros H; injection H as <-; [|left; reflexivity].
      right. exists f. split; [reflexivity|].
      apply first_family_in_Some in Hf as [Hin _]. apply Horder. exact Hin.
    + intros H. injection H as <-. left. reflexivity.
  - intros H. injection H as <-. left. reflexivity.
Qed.

Lemma known_family_nonempty s : s ∈ KNOWN_FAMILIES → s ≠ "".
Proof.
  intros H ->. apply (bool_decide_pack _) in H. vm_compute in H. exact H.
Qed.

(** The family of a descriptor is a member of the known vocabulary or the
    sentinel ["unknown"], provided the iteration visits known families
    only. *)
Theorem descriptor_family order api model_id max_size_gb metadata :
  (∀ f, f ∈ order → f ∈ KNOWN_FAMILIES) →
  is_compatible_model order api model_id max_size_gb = Ok (true, Some metadata) →
  ∃ f, metadata !! "family" = Some (PyStr f) ∧
       (f ∈ KNOWN_FAMILIES ∨ f = "unknown").
Proof.
  intros Horder H. apply is_compatible_model_accepts in H.
  destruct H as (info & fmt & sz & fam & dl & lk & _ & _ & _ & _ & _ & Hfam & _ & _ & ->).
  rewrite metadata_family.
  destruct (detect_family_value _ _ _ _ Horder Hfam) as [-> | (s & -> & Hs)].
  - exists "unknown". split; [reflexivity | right; reflexivity].
  - exists s. split; [|left; exact Hs].
    unfold py_or. simpl.
    destruct (String.eqb_spec s ""); [|reflexivity].
    exfalso. eapply known_family_nonempty; eassumption.
Qed.

Lemma descriptor_family_witness :
  ∃ f, Sample.descriptor_qwen "qwen2" !! "family" = Some (PyStr f) ∧
       (f ∈ KNOWN_FAMILIES ∨ f = "unknown").
Proof.
  apply (descriptor_family Sample.order_a (Sample.api [])
           "Qwen/Qwen2-7B-Instruct" 20).
  - intros f Hf. apply elem_of_elements. exact Hf.
  - vm_compute. reflexivity.
Defined.

(** The size of a descriptor is the total of [get_model_size_gb] rounded to
    hundredths, off by at most 0.005; a total that is zero or could not be
    computed is reported as null. *)
Theorem descriptor_size_gb order api model_id max_size_gb metadata :
  is_compatible_model order api model_id max_size_gb = Ok (true, Some metadata) →
  ∃ info size_gb,
    model_info api model_id = Ok info ∧
    get_model_size_gb info = Ok size_gb ∧
    match size_gb with
    | Some q =>
        if Qeq_bool q 0 then metadata !! "size_gb" = Some PyNone
        else ∃ s, metadata !! "size_gb" = Some (PyFloat s) ∧
                  Qden s = 100%positive ∧
                  (q - (1 # 200) <= s)%Q ∧ (s <= q + (1 # 200))%Q
    | None => metadata !! "size_gb" = Some PyNone
    end.
Proof.
  intros H. apply is_compatible_model_accepts in H.
  destruct H as (info & fmt & sz & fam & dl & lk & Hinfo & _ & _ & Hsz & _ & _ & _ & _ & ->).
  exists info, sz. split; [exact Hinfo|]. split; [exact Hsz|].
  rewrite metadata_size_gb. destruct sz as [q|]; [|reflexivity].
  simpl. destruct (Qeq_bool q 0); simpl; [reflexivity|].
  exists (round2 q). split; [reflexivity|]. split; [reflexivity|].
  split; [apply round2_lower | apply round2_upper].
Qed.

Lemma descriptor_size_gb_witness :
  ∃ info size_gb,
    model_info (Sample.api []) "Qwen/Qwen2-7B-Instruct" = Ok info ∧
    get_model_size_gb info = Ok size_gb ∧
    match size_gb with
    | Some q =>
        if Qeq_bool q 0
        then Sample.descriptor_qwen "qwen2" !! "size_gb" = Some PyNone
        else ∃ s, Sample.descriptor_qwen "qwen2" !! "size_gb" = Some (PyFloat s) ∧
                  Qden s = 100%positive ∧
                  (q - (1 # 200) <= s)%Q ∧ (s <= q + (1 # 200))%Q
    | None => Sample.descriptor_qwen "qwen2" !! "size_gb" = Some PyNone
    end.
Proof.
  apply (descriptor_size_gb Sample.order_a (Sample.api [])
           "Qwen/Qwen2-7B-Instruct" 20).
  vm_compute. reflexivity.
Defined.

(** * Further properties of the selector *)

Lemma select_loop_nonpositive order api limit max_size_gb models :
  (limit ≤ 0)%Z →
  select_loop order api limit max_size_gb models [] =
  Ok (take 1 (accepted order api max_size_gb models)).
Proof.
  intros Hlimit. induction models as [|model_id rest IH]; [reflexivity|].
  rewrite accepted_cons.
  destruct (evaluate order api max_size_gb model_id) as [metadata|] eqn:Hev.
  - apply evaluate_Some in Hev.
    rewrite (select_loop_accept _ _ _ _ _ _ _ _ Hev).
    destruct (_ >=? _)%Z eqn:Hge; [reflexivity|].
    rewrite Z.geb_leb in Hge. apply Z.leb_gt in Hge. simpl in Hge. lia.
  - rewrite select_loop_reject by assumption. exact IH.
Qed.

Lemma select_top_models_take order api limit max_size_gb sort_by task :
  select_top_models order api limit max_size_gb sort_by task =
  Ok (take (Z.to_nat (Z.max 1 limit))
        (accepted order api max_size_gb
           (list_models api task sort_by (limit * 10)))).
Proof.
  unfold select_top_models.
  destruct (Z.lt_ge_cases 0 limit) as [Hpos | Hnon].
  - rewrite select_loop_take by (simpl; lia).
    rewrite Z.max_r by lia. reflexivity.
  - rewrite select_loop_nonpositive by lia.
    rewrite Z.max_l by lia. reflexivity.
Qed.

(** The selector for every limit: its result is the first [max(1, limit)]
    accepted descriptors of the stream requested with [limit * 10], in
    rank order. *)
Theorem select_top_models_result order api limit max_size_gb sort_by task :
  select_top_models order api limit max_size_gb sort_by task =
  Ok (take (Z.to_nat (Z.max 1 limit))
        (accepted order api max_size_gb
           (list_models api task sort_by (limit * 10)))).
Proof. apply select_top_models_take. Qed.

Lemma accepted_complete order api max_size_gb models :
  Forall complete (accepted order api max_size_gb models).
Proof.
  induction models as [|model_id rest IH]; [constructor|].
  rewrite accepted_cons.
  destruct (evaluate order api max_size_gb model_id) as [metadata|] eqn:Hev;
    [|exact IH].
  constructor; [|exact IH].
  apply evaluate_Some, is_compatible_model_accepts in Hev.
  destruct Hev as (info & fmt & sz & fam & dl & lk & _ & _ & _ & _ & _ & _ & _ & _ & ->).
  apply metadata_complete.
Qed.

(** Selector and validator compose: whatever the selector returns passes
    schema validation. *)
Theorem selected_models_validate
    order api limit max_size_gb sort_by task result :
  select_top_models order api limit max_size_gb sort_by task = Ok result →
  (validate_models_json result).2 = true.
Proof.
  rewrite select_top_models_take. intros H. injection H as <-.
  apply validate_from_ok. apply Forall_take. apply accepted_complete.
Qed.

Lemma selected_models_validate_witness :
  (validate_models_json [Sample.descriptor_qwen "qwen2"]).2 = true.
Proof.
  apply (selected_models_validate Sample.order_a (Sample.api Sample.stream3)
           2 20 "downloads" (Some "text-generation")).
  vm_compute. reflexivity.
Defined.

Lemma take_accepted_ids order api max_size_gb models :
  ∀ n,
    omap descriptor_id (take n (accepted order api max_size_gb models))
      `sublist_of` models ∧
    length (omap descriptor_id (take n (accepted order api max_size_gb models))) =
    length (take n (accepted order api max_size_gb models)).
Proof.
  induction models as [|model_id rest IH]; intros n.
  - destruct n; (split; [constructor | reflexivity]).
  - rewrite accepted_cons.
    destruct (evaluate order api max_size_gb model_id) as [metadata|] eqn:Hev.
    + destruct n as [|n]; [split; [apply sublist_nil_l | reflexivity]|].
      apply evaluate_Some, is_compatible_model_accepts in Hev.
      destruct Hev as (info & fmt & sz & fam & dl & lk & _ & _ & _ & _ & _ & _ & _ & _ & ->).
      destruct (IH n) as [Hsub Hlen].
      change (take (S n) (?x :: ?l)) with (x :: take n l).
      change (omap descriptor_id (?x :: ?l))
        with (match descriptor_id x with
              | Some y => y :: omap descriptor_id l
              | None => omap descriptor_id l
              end).
      change (descriptor_id (make_metadata model_id fam fmt
                (extract_param_size model_id) sz dl lk)) with (Some model_id).
      split; [apply sublist_skip; exact Hsub | simpl; rewrite Hlen; reflexivity].
    + destruct (IH n) as [Hsub Hlen].
      split; [apply sublist_cons; exact Hsub | exact Hlen].
Qed.

(** No re-ordering and no invention: every returned descriptor carries the
    identifier of a candidate of the stream, and these identifiers occur
    in the stream in the same order. *)
Theorem selected_models_rank_order
    order api limit max_size_gb sort_by task result :
  select_top_models order api limit max_size_gb sort_by task = Ok result →
  omap descriptor_id result `sublist_of` list_models api task sort_by (limit * 10) ∧
  length (omap descriptor_id result) = length result.
Proof.
  rewrite select_top_models_take. intros H. injection H as <-.
  apply take_accepted_ids.
Qed.

Lemma selected_models_rank_order_witness :
  omap descriptor_id [Sample.descriptor_qwen "qwen2"] `sublist_of` Sample.stream3 ∧
  length (omap descriptor_id [Sample.descriptor_qwen "qwen2"]) = 1.
Proof.
  apply (selected_models_rank_order Sample.order_a (Sample.api Sample.stream3)
           2 20 "downloads" (Some "text-generation")).
  vm_compute. reflexivity.
Defined.

(** * Further properties of the file-listing checks *)

Lemma any_config_listing (files : list (string * gmap string pyval)) :
  any_config ((λ f, file_obj f.1 f.2) <$> files) =
  Ok (bool_decide ("config.json" ∈ files.*1)).
Proof.
  induction files as [|[name attrs] rest IH]; [reflexivity|].
  rewrite !fmap_cons. cbn [any_config fst snd].
  rewrite getattr_file_obj. cbn [mbind result_bind eq_str].
  destruct (String.eqb_spec name "config.json") as [-> | Hne].
  - rewrite bool_decide_true by left. reflexivity.
  - rewrite IH. f_equal. apply bool_decide_ext.
    rewrite elem_of_cons. split; [tauto|]. intros [H | H]; [congruence | exact H].
Qed.

(** On a well-formed listing the config check answers whether some file is
    named exactly [config.json]: the comparison is case-sensitive and takes
    the whole path, so [Config.json] or [sub/config.json] do not count. *)
Theorem has_config_json_listing files attrs :
  has_config_json (listing_info files attrs) =
  Ok (Some (bool_decide ("config.json" ∈ files.*1))).
Proof.
  unfold has_config_json, has_config_json_body, has_truthy, listing_info,
    hasattr, getattr.
  rewrite lookup_insert_eq. rewrite bool_decide_true by eauto.
  cbn [mbind result_bind mret result_ret].
  destruct files as [|f rest]; [reflexivity|].
  pose proof (any_config_listing (f :: rest)) as Hany.
  rewrite fmap_cons in Hany. rewrite fmap_cons.
  cbn [truthy iter mbind result_bind].
  rewrite Hany. reflexivity.
Qed.

Example has_config_json_exact_name :
  has_config_json (listing_info [("Config.json", ∅); ("sub/config.json", ∅)] ∅)
  = Ok (Some false).
Proof. vm_compute. reflexivity. Qed.

Lemma has_truthy_sized_file (f : string * option Z) :
  has_truthy (file_obj (sized_file f).1 (sized_file f).2) "size" =
  Ok (match f.2 with
      | Some z => negb (z =? 0)%Z
      | None => false
      end).
Proof.
  destruct f as [name [z|]]; unfold has_truthy, hasattr, getattr, file_obj, sized_file;
    cbn [fst snd]; rewrite lookup_insert_ne by discriminate.
  - rewrite lookup_singleton_eq. rewrite bool_decide_true by eauto. reflexivity.
  - rewrite lookup_empty.
    rewrite bool_decide_false by (intros [? ?]; discriminate). reflexivity.
Qed.

Lemma getattr_sized_file_size name z :
  getattr (file_obj (sized_file (name, Some z)).1 (sized_file (name, Some z)).2) "size"
  = Ok (PyInt z).
Proof.
  unfold getattr, file_obj, sized_file. cbn [fst snd].
  rewrite lookup_insert_ne by discriminate. rewrite lookup_singleton_eq. reflexivity.
Qed.

Lemma sum_sizes_listing (files : list (string * option Z)) :
  ∀ total_size,
    ∃ q, sum_sizes ((λ f, file_obj f.1 f.2) <$> (sized_file <$> files)) total_size
         = Ok q ∧
         (q == total_size + inject_Z (total_bytes files))%Q.
Proof.
  induction files as [|[name sz] rest IH]; intros total_size.
  - exists total_size. split; [reflexivity|].
    change (inject_Z (total_bytes [])) with 0%Q. rewrite Qplus_0_r. reflexivity.
  - rewrite !fmap_cons. cbn [sum_sizes].
    rewrite has_truthy_sized_file. cbn [mbind result_bind snd].
    destruct sz as [z|].
    + destruct (Z.eqb_spec z 0) as [-> | Hz]; cbn [negb].
      * destruct (IH total_size) as (q & -> & Hq). exists q.
        split; [reflexivity|]. rewrite Hq. reflexivity.
      * rewrite getattr_sized_file_size. cbn [mbind result_bind add_num].
        destruct (IH (total_size + inject_Z z)%Q) as (q & -> & Hq). exists q.
        split; [reflexivity|]. rewrite Hq.
        change (total_bytes ((name, Some z) :: rest)) with (z + total_bytes rest)%Z.
        rewrite inject_Z_plus, Qplus_assoc. reflexivity.
    + destruct (IH total_size) as (q & -> & Hq). exists q.
      split; [reflexivity|]. rewrite Hq. reflexivity.
Qed.

(** On a listing whose sizes are integers or missing, the size in GB is the
    sum of the sizes that are present divided by [1024 ** 3]; an empty
    listing, or one without any size, gives 0. *)
Theorem get_model_size_gb_listing (files : list (string * option Z)) attrs :
  ∃ size_gb,
    get_model_size_gb (listing_info (sized_file <$> files) attrs) = Ok (Some size_gb) ∧
    (size_gb == inject_Z (total_bytes files) / inject_Z (1024 ^ 3))%Q.
Proof.
  unfold get_model_size_gb, get_model_size_gb_body, has_truthy, listing_info,
    hasattr, getattr.
  rewrite lookup_insert_eq. rewrite bool_decide_true by eauto.
  cbn [mbind result_bind mret result_ret].
  destruct files as [|f rest].
  - eexists. split; [reflexivity|]. reflexivity.
  - destruct (sum_sizes_listing (f :: rest) 0%Q) as (q & Hsum & Hq).
    rewrite !fmap_cons in Hsum. rewrite !fmap_cons.
    cbn [truthy iter mbind result_bind].
    rewrite Hsum. eexists. split; [reflexivity|].
    rewrite Hq, Qplus_0_l. reflexivity.
Qed.

Lemma lower_ascii_idem c : lower_ascii (lower_ascii c) = lower_ascii c.
Proof. destruct c as [[] [] [] [] [] [] [] []]; reflexivity. Qed.

Lemma lower_idem s : lower (lower s) = lower s.
Proof.
  induction s as [|c s IH]; [reflexivity|].
  simpl. rewrite lower_ascii_idem, IH. reflexivity.
Qed.

Lemma lower_upper_ascii c : lower_ascii (upper_ascii c) = lower_ascii c.
Proof. destruct c as [[] [] [] [] [] [] [] []]; reflexivity. Qed.

Lemma lower_upper s : lower (upper s) = lower s.
Proof.
  induction s as [|c s IH]; [reflexivity|].
  simpl. rewrite lower_upper_ascii, IH. reflexivity.
Qed.

Lemma omap_format_same_lower (files files' : list (string * gmap string pyval)) :
  Forall2 (λ f g, lower f.1 = lower g.1) files files' →
  omap (λ f, file_format (lower f.1)) files =
  omap (λ f, file_format (lower f.1)) files'.
Proof.
  induction 1 as [|f g files files' Hfg _ IH]; [reflexivity|].
  change (omap ?h (f :: files))
    with (match h f with Some y => y :: omap h files | None => omap h files end).
  change (omap ?h (g :: files'))
    with (match h g with Some y => y :: omap h files' | None => omap h files' end).
  cbv beta. rewrite Hfg, IH. reflexivity.
Qed.

(** Format detection reads file names case-insensitively: two listings
    whose names agree, in order, after lower-casing get the same format,
    whatever else the files and the model carry. *)
Theorem get_model_format_case_insensitive files files' attrs attrs' :
  Forall2 (λ f g, lower f.1 = lower g.1) files files' →
  get_model_format (listing_info files attrs) =
  get_model_format (listing_info files' attrs').
Proof.
  intros H. rewrite !get_model_format_listing.
  rewrite (omap_format_same_lower files files' H). reflexivity.
Qed.

Lemma get_model_format_case_insensitive_witness :
  get_model_format (listing_info [("MODEL.SafeTensors", ∅)] ∅) =
  get_model_format (listing_info [("model.safetensors", {["size" := PyInt 7]})]
                      {["likes" := PyInt 1]}).
Proof.
  apply (get_model_format_case_insensitive
           [("MODEL.SafeTensors", ∅)]
           [("model.safetensors", {["size" := PyInt 7]})]).
  repeat constructor.
Defined.

(** A [.bin] file counts as a weight file only when its name also contains
    [pytorch_model]; any other [.bin] is not recognised at all. *)
Theorem file_format_bin filename :
  endswith filename ".bin" = true →
  file_format filename =
  if contains "pytorch_model" filename then Some "bin" else None.
Proof.
  unfold file_format, endswith.
  generalize (srev filename) as r. intros r.
  change (srev ".pth") with "htp.".
  change (srev ".safetensors") with "srosnetefas.".
  change (srev ".gguf") with "fugg.".
  change (srev ".onnx") with "xnno.".
  change (srev ".bin") with "nib.".
  change (srev ".pt") with "tp.".
  destruct r as [|c r]; cbn [startswith]; [discriminate|].
  destruct (Ascii.eqb_spec "n" c) as [<-|]; [|discriminate].
  simpl. intros ->. simpl.
  destruct (contains "pytorch_model" filename); reflexivity.
Qed.

Lemma file_format_bin_witness :
  file_format "tokenizer.bin" =
  if contains "pytorch_model" "tokenizer.bin" then Some "bin" else None.
Proof. apply (file_format_bin "tokenizer.bin"). reflexivity. Defined.

(** * Further properties of the validator *)

Lemma image_name_chars model_id :
  all_chars (λ c, negb (Ascii.eqb c "/") && negb (is_upper c)) (image_name model_id)
  = true.
Proof.
  unfold image_name. induction model_id as [|c s IH]; [reflexivity|].
  cbn [lower replace_char all_chars]. rewrite IH, andb_true_r.
  clear. destruct c as [[] [] [] [] [] [] [] []]; reflexivity.
Qed.

Lemma image_name_length model_id :
  String.length (image_name model_id) = String.length model_id.
Proof.
  unfold image_name. induction model_id as [|c s IH]; [reflexivity|].
  cbn [lower replace_char String.length]. rewrite IH. reflexivity.
Qed.

Lemma image_name_idem model_id :
  image_name (image_name model_id) = image_name model_id.
Proof.
  unfold image_name. induction model_id as [|c s IH]; [reflexivity|].
  cbn [lower replace_char]. rewrite IH. f_equal.
  clear. destruct c as [[] [] [] [] [] [] [] []]; reflexivity.
Qed.

(** The image name derived from an identifier has the identifier's length,
    holds no [/] and no upper-case ASCII letter, and is left unchanged by
    deriving it again. *)
Theorem image_name_normal model_id :
  all_chars (λ c, negb (Ascii.eqb c "/") && negb (is_upper c)) (image_name model_id)
  = true ∧
  String.length (image_name model_id) = String.length model_id ∧
  image_name (image_name model_id) = image_name model_id.
Proof.
  split; [apply image_name_chars|]. split; [apply image_name_length|].
  apply image_name_idem.
Qed.

(** * Further properties of family detection *)

Lemma family_from_config_tagged config tags attrs :
  match config !! "model_type" with
  | Some (PyList _) | Some (PyDict _) => False
  | _ => True
  end →
  family_from_config (tagged_info config tags attrs) =
  Ok (PyStr <$> known_model_type config).
Proof.
  intros Hmt.
  unfold family_from_config, has_truthy, tagged_info, hasattr, getattr.
  rewrite lookup_insert_eq. rewrite bool_decide_true by eauto.
  cbn [mbind result_bind mret result_ret truthy dict_get].
  unfold known_model_type.
  destruct (decide (config = ∅)) as [-> | Hne].
  - rewrite bool_decide_true by reflexivity. rewrite lookup_empty. reflexivity.
  - rewrite bool_decide_false by exact Hne. cbn [negb].
    destruct (config !! "model_type") as [v|]; [|reflexivity].
    destruct v; try contradiction; unfold default; cbn [from_option id truthy in_str_set];
      try reflexivity;
      try (match goal with |- context [if ?c then _ else _] => destruct c end;
           reflexivity).
    destruct (String.eqb_spec s "") as [-> | Hs]; cbn [negb mbind result_bind].
    + rewrite bool_decide_false; [reflexivity|].
      intros H. eapply known_family_nonempty; [exact H | reflexivity].
    + destruct (bool_decide (s ∈ KNOWN_FAMILIES)); reflexivity.
Qed.

Lemma first_known_tag_strings (tags : list string) :
  first_known_tag (PyStr <$> tags) =
  Ok (PyStr <$> List.find (λ t, bool_decide (t ∈ KNOWN_FAMILIES)) tags).
Proof.
  induction tags as [|t rest IH]; [reflexivity|].
  rewrite fmap_cons. cbn [first_known_tag in_str_set mbind result_bind List.find].
  destruct (bool_decide (t ∈ KNOWN_FAMILIES)); [reflexivity | exact IH].
Qed.

Lemma family_from_tags_tagged config tags attrs :
  family_from_tags (tagged_info config tags attrs) =
  Ok (PyStr <$> List.find (λ t, bool_decide (t ∈ KNOWN_FAMILIES)) tags).
Proof.
  unfold family_from_tags, has_truthy, tagged_info, hasattr, getattr.
  rewrite lookup_insert_ne by discriminate.
  rewrite lookup_insert_eq. rewrite bool_decide_true by eauto.
  cbn [mbind result_bind mret result_ret].
  destruct tags as [|t rest]; [reflexivity|].
  pose proof (first_known_tag_strings (t :: rest)) as Htags.
  rewrite fmap_cons in *. cbn [truthy iter mbind result_bind].
  exact Htags.
Qed.

(** Priority of the three sources on well-formed metadata: the config's
    model type when it is a known family; otherwise the first tag, in tag
    order, that is a known family; otherwise the first family of the
    iteration whose name occurs in the lower-cased identifier; otherwise
    nothing. *)
Theorem detect_family_priority order config tags attrs model_id :
  match config !! "model_type" with
  | Some (PyList _) | Some (PyDict _) => False
  | _ => True
  end →
  detect_family order (tagged_info config tags attrs) model_id =
  Ok (match known_model_type config with
      | Some model_type => PyStr model_type
      | None =>
          match List.find (λ t, bool_decide (t ∈ KNOWN_FAMILIES)) tags with
          | Some tag => PyStr tag
          | None =>
              match first_family_in order (lower model_id) with
              | Some family => PyStr family
              | None => PyNone
              end
          end
      end).
Proof.
  intros Hmt. rewrite detect_family_unfold.
  rewrite (family_from_config_tagged _ _ _ Hmt), family_from_tags_tagged.
  destruct (known_model_type config); [reflexivity|]. cbn [fmap option_fmap option_map].
  destruct (List.find _ tags); reflexivity.
Qed.

Lemma detect_family_priority_witness :
  detect_family Sample.order_a
    (tagged_info {["model_type" := PyStr "mistral"]} ["llama"; "qwen"] ∅)
    "acme/phi-3-mini" = Ok (PyStr "mistral").
Proof.
  rewrite (detect_family_priority Sample.order_a
             {["model_type" := PyStr "mistral"]} ["llama"; "qwen"] ∅ "acme/phi-3-mini")
    by (vm_compute; exact I).
  vm_compute. reflexivity.
Defined.

(** A model type that cannot be hashed makes the whole detection give up:
    the exception skips the tag and name fallbacks as well. *)
Example detect_family_unhashable_model_type :
  detect_family Sample.order_a
    (tagged_info {["model_type" := PyList [PyStr "llama"]]} ["llama"] ∅)
    "acme/llama-7b" = Ok PyNone.
Proof. vm_compute. reflexivity. Qed.

(** * The matcher against the languages of its patterns *)

Lemma str_app_assoc (a b c : string) : (a +:+ b) +:+ c = a +:+ (b +:+ c).
Proof.
  induction a as [|x a IH]; [reflexivity|].
  change (String x ((a +:+ b) +:+ c) = String x (a +:+ (b +:+ c))).
  f_equal. exact IH.
Qed.

Lemma str_app_nil_l (s : string) : "" +:+ s = s.
Proof. reflexivity. Qed.

Lemma str_app_cons (c : ascii) (s t : string) : String c s +:+ t = String c (s +:+ t).
Proof. reflexivity. Qed.

Lemma str_app_length (a b : string) :
  String.length (a +:+ b) = (String.length a + String.length b)%nat.
Proof.
  induction a as [|x a IH]; [reflexivity|].
  change (S (String.length (a +:+ b)) = S (String.length a + String.length b)).
  f_equal. exact IH.
Qed.

Lemma take_str_app (w rest : string) : Re.take_str (String.length w) (w +:+ rest) = w.
Proof.
  induction w as [|x w IH]; [destruct rest; reflexivity|].
  change (String x (Re.take_str (String.length w) (w +:+ rest)) = String x w).
  f_equal. exact IH.
Qed.

Lemma consumed_app (w rest : string) : Re.consumed (w +:+ rest) rest = w.
Proof.
  unfold Re.consumed. rewrite str_app_length.
  replace (String.length w + String.length rest - String.length rest)%nat
    with (String.length w) by lia.
  apply take_str_app.
Qed.

Lemma first_some_Some {A} (x y : option A) (a : A) :
  Re.first_some x y = Some a → x = Some a ∨ (x = None ∧ y = Some a).
Proof. destruct x; simpl; intros H; [left | right]; auto. Qed.

Lemma first_some_is_Some_r {A} (x y : option A) :
  is_Some y → is_Some (Re.first_some x y).
Proof. destruct x; simpl; [eauto | auto]. Qed.

Lemma first_some_is_Some_l {A} (x y : option A) :
  is_Some x → is_Some (Re.first_some x y).
Proof. intros [a ->]. simpl. eauto. Qed.

(** *** Soundness: what the matcher accepts is in the language *)

Lemma star_sound {A} p s (k : string → option A) x :
  Re.star p s k = Some x →
  ∃ w rest, s = w +:+ rest ∧ all_chars p w = true ∧ k rest = Some x.
Proof.
  induction s as [|c s IH]; simpl; intros H.
  - exists "", "". repeat split; assumption.
  - destruct (p c) eqn:Hc.
    + apply first_some_Some in H as [H | [_ H]].
      * destruct (IH H) as (w & rest & -> & Hw & Hk).
        exists (String c w), rest. simpl. rewrite Hc, Hw. repeat split; assumption.
      * exists "", (String c s). repeat split; assumption.
    + exists "", (String c s). repeat split; assumption.
Qed.

Lemma matches_sound {A} r :
  group_free r →
  ∀ s cap (k : string → option string → option A) x,
    Re.matches r s cap k = Some x →
    ∃ w rest, s = w +:+ rest ∧ lang r w ∧ k rest cap = Some x.
Proof.
  induction r as [p|p|p|p|r1 IH1 r2 IH2|r IH]; simpl; intros Hfree s cap k x H;
    try contradiction.
  - destruct s as [|c s]; [discriminate|]. destruct (p c) eqn:Hc; [|discriminate].
    exists (String c ""), s. repeat split; eauto.
  - destruct s as [|c s].
    + exists "", "". repeat split; auto.
    + destruct (p c) eqn:Hc.
      * apply first_some_Some in H as [H | [_ H]].
        -- exists (String c ""), s. repeat split; eauto.
        -- exists "", (String c s). repeat split; auto.
      * exists "", (String c s). repeat split; auto.
  - apply star_sound in H as (w & rest & -> & Hw & Hk).
    exists w, rest. repeat split; assumption.
  - destruct s as [|c s]; [discriminate|]. destruct (p c) eqn:Hc; [|discriminate].
    apply star_sound in H as (w & rest & -> & Hw & Hk).
    exists (String c w), rest. simpl. rewrite Hc, Hw.
    repeat split; [discriminate | assumption].
  - destruct Hfree as [Hf1 Hf2].
    apply (IH1 Hf1) in H as (w1 & rest1 & -> & Hw1 & H).
    apply (IH2 Hf2) in H as (w2 & rest2 & -> & Hw2 & H).
    exists (w1 +:+ w2), rest2. rewrite str_app_assoc.
    repeat split; [|assumption]. exists w1, w2. repeat split; assumption.
Qed.

Lemma number_re_group_free : group_free number_re.
Proof. repeat split. Qed.

Lemma match_here_lower_sound s g :
  Re.match_here pattern_lower s = Some g →
  ∃ num rest, s = num +:+ String "b" rest ∧ lang number_re num ∧ g = Some num.
Proof.
  unfold Re.match_here.
  change pattern_lower with (Re.Seq (Re.Group number_re) (Re.Chr (Re.is_char "b"))).
  cbn [Re.matches]. intros H.
  apply (matches_sound number_re number_re_group_free) in H
    as (num & rest & -> & Hnum & H).
  destruct rest as [|c rest]; [discriminate|].
  unfold Re.is_char in H. destruct (Ascii.eqb_spec c "b") as [-> | ]; [|discriminate].
  exists num, rest. rewrite consumed_app in H.
  repeat split; [assumption | congruence].
Qed.

Lemma search_lower_sound s g :
  Re.search pattern_lower s = Some g →
  ∃ pre num rest,
    s = pre +:+ num +:+ String "b" rest ∧ lang number_re num ∧ g = Some num.
Proof.
  induction s as [|c s IH]; intros H.
  - change (Re.first_some (Re.match_here pattern_lower "") None = Some g) in H.
    apply first_some_Some in H as [H | [_ H]]; [|discriminate].
    apply match_here_lower_sound in H as (num & rest & Hs & Hnum & ->).
    exists "", num, rest. repeat split; assumption.
  - change (Re.first_some (Re.match_here pattern_lower (String c s))
              (Re.search pattern_lower s) = Some g) in H.
    apply first_some_Some in H as [H | [_ H]].
    + apply match_here_lower_sound in H as (num & rest & Hs & Hnum & ->).
      exists "", num, rest. repeat split; assumption.
    + apply IH in H as (pre & num & rest & -> & Hnum & ->).
      exists (String c pre), num, rest. repeat split; assumption.
Qed.

(** *** Completeness: a word of the language is accepted *)

Lemma star_fallback {A} p s (k : string → option A) :
  is_Some (k s) → is_Some (Re.star p s k).
Proof.
  intros H. destruct s as [|c s]; simpl; [exact H|].
  destruct (p c); [apply first_some_is_Some_r|]; exact H.
Qed.

Lemma star_complete {A} p w t (k : string → option A) :
  all_chars p w = true → is_Some (k t) → is_Some (Re.star p (w +:+ t) k).
Proof.
  intros Hw Hk. induction w as [|c w IH]; [apply star_fallback; exact Hk|].
  rewrite str_app_cons. cbn [Re.star all_chars] in *.
  apply andb_true_iff in Hw as [Hc Hw]. rewrite Hc.
  apply first_some_is_Some_l. apply IH. exact Hw.
Qed.

Lemma matches_complete {A} r :
  ∀ w t cap (k : string → option string → option A),
    lang r w → (∀ cap', is_Some (k t cap')) →
    is_Some (Re.matches r (w +:+ t) cap k).
Proof.
  induction r as [p|p|p|p|r1 IH1 r2 IH2|r IH]; cbn [lang Re.matches];
    intros w t cap k Hw Hk.
  - destruct Hw as (c & -> & Hc). rewrite str_app_cons, str_app_nil_l.
    rewrite Hc. apply Hk.
  - destruct Hw as [-> | (c & -> & Hc)].
    + rewrite str_app_nil_l. destruct t as [|c t]; [apply Hk|].
      destruct (p c); [apply first_some_is_Some_r|]; apply Hk.
    + rewrite str_app_cons, str_app_nil_l.
      rewrite Hc. apply first_some_is_Some_l. apply Hk.
  - apply star_complete; [exact Hw | apply Hk].
  - destruct Hw as [Hne Hw]. destruct w as [|c w]; [congruence|].
    rewrite str_app_cons. cbn [all_chars] in Hw.
    apply andb_true_iff in Hw as [Hc Hw]. rewrite Hc.
    apply star_complete; [exact Hw | apply Hk].
  - destruct Hw as (w1 & w2 & -> & Hw1 & Hw2). rewrite str_app_assoc.
    apply IH1; [exact Hw1|]. intros cap'. apply IH2; [exact Hw2 | exact Hk].
  - apply IH; [exact Hw|]. intros cap'. apply Hk.
Qed.

Lemma match_here_lower_complete num rest :
  lang number_re num →
  is_Some (Re.match_here pattern_lower (num +:+ String "b" rest)).
Proof.
  intros Hnum. unfold Re.match_here.
  change (String "b" rest) with ("b" +:+ rest). rewrite <- str_app_assoc.
  apply matches_complete; [|intros cap'; eauto].
  change pattern_lower with (Re.Seq (Re.Group number_re) (Re.Chr (Re.is_char "b"))).
  exists num, "b". repeat split; [exact Hnum|].
  exists "b"%char. split; reflexivity.
Qed.

Lemma search_complete r pre t :
  is_Some (Re.match_here r t) → is_Some (Re.search r (pre +:+ t)).
Proof.
  intros H. induction pre as [|c pre IH].
  - destruct t; simpl; apply first_some_is_Some_l; exact H.
  - change (is_Some (Re.first_some (Re.match_here r (String c (pre +:+ t)))
                       (Re.search r (pre +:+ t)))).
    apply first_some_is_Some_r. exact IH.
Qed.

(** *** The extracted parameter size *)

Lemma all_chars_app p a b :
  all_chars p (a +:+ b) = all_chars p a && all_chars p b.
Proof.
  induction a as [|c a IH]; [reflexivity|].
  rewrite str_app_cons. cbn [all_chars]. rewrite IH, andb_assoc. reflexivity.
Qed.

Lemma all_chars_impl (p q : ascii → bool) s :
  (∀ c, p c = true → q c = true) → all_chars p s = true → all_chars q s = true.
Proof.
  intros Hpq. induction s as [|c s IH]; [reflexivity|]. cbn [all_chars].
  intros H. apply andb_true_iff in H as [Hc Hs].
  rewrite (Hpq c Hc), (IH Hs). reflexivity.
Qed.

Lemma number_re_chars num :
  lang number_re num → num ≠ "" ∧ all_chars number_char num = true.
Proof.
  intros (w1 & w2 & -> & [Hne Hw1] & w3 & w4 & -> & Hw3 & Hw4).
  cbn [lang] in Hw4. split.
  - destruct w1; [congruence | discriminate].
  - rewrite !all_chars_app.
    rewrite (all_chars_impl Re.digit number_char w1), (all_chars_impl Re.digit number_char w4);
      try assumption;
      try (intros c Hc; unfold number_char; rewrite Hc; reflexivity).
    destruct Hw3 as [-> | (c & -> & Hc)]; [reflexivity|].
    cbn [all_chars]. unfold number_char. rewrite Hc, orb_true_r. reflexivity.
Qed.

Lemma upper_number_char c : number_char c = true → upper_ascii c = c.
Proof. destruct c as [[] [] [] [] [] [] [] []]; (discriminate || reflexivity). Qed.

Lemma upper_number s : all_chars number_char s = true → upper s = s.
Proof.
  induction s as [|c s IH]; [reflexivity|]. cbn [all_chars upper].
  intros H. apply andb_true_iff in H as [Hc Hs].
  rewrite (upper_number_char c Hc), (IH Hs). reflexivity.
Qed.

Lemma all_chars_rev_onto p s acc :
  all_chars p (rev_onto s acc) = all_chars p s && all_chars p acc.
Proof.
  revert acc. induction s as [|c s IH]; intros acc; [reflexivity|].
  cbn [rev_onto all_chars]. rewrite IH. cbn [all_chars].
  destruct (p c), (all_chars p s), (all_chars p acc); reflexivity.
Qed.

Lemma number_not_endswith s (x : ascii) :
  number_char x = false → all_chars number_char s = true →
  endswith s (String x "") = false.
Proof.
  intros Hx Hs. unfold endswith, srev.
  assert (all_chars number_char (rev_onto s "") = true) as Hr
    by (rewrite all_chars_rev_onto, Hs; reflexivity).
  cbn [rev_onto]. destruct (rev_onto s "") as [|c r]; [reflexivity|].
  cbn [startswith all_chars] in *. apply andb_true_iff in Hr as [Hc _].
  destruct (Ascii.eqb_spec x c) as [-> | _]; [congruence | reflexivity].
Qed.

Lemma normalize_size_number num :
  lang number_re num → normalize_size num = num +:+ "B".
Proof.
  intros H. apply number_re_chars in H as [_ H]. unfold normalize_size.
  rewrite (upper_number num H).
  rewrite (number_not_endswith num "B" eq_refl H).
  rewrite (number_not_endswith num "M" eq_refl H). reflexivity.
Qed.

Lemma extract_param_size_inv model_id size :
  extract_param_size model_id = Some size →
  ∃ pre num rest,
    lower model_id = pre +:+ num +:+ String "b" rest ∧
    lang number_re num ∧ size = num +:+ "B".
Proof.
  rewrite extract_param_size_second_pattern.
  destruct (Re.search pattern_lower (lower model_id)) as [g|] eqn:Hs; [|discriminate].
  apply search_lower_sound in Hs as (pre & num & rest & Heq & Hnum & ->).
  intros H. injection H as <-.
  exists pre, num, rest. repeat split; try assumption.
  cbn [default from_option id]. apply normalize_size_number. exact Hnum.
Qed.

(** Whenever a parameter size is extracted, it is a number (digits, an
    optional dot, digits) that is followed by [b] somewhere in the
    lower-cased identifier, with [B] appended. *)
Theorem extract_param_size_value model_id size :
  extract_param_size model_id = Some size →
  ∃ pre num rest,
    lower model_id = pre +:+ num +:+ String "b" rest ∧
    lang number_re num ∧ size = num +:+ "B".
Proof. apply extract_param_size_inv. Qed.

Lemma extract_param_size_value_witness :
  ∃ pre num rest,
    lower "Qwen2-0.5B" = pre +:+ num +:+ String "b" rest ∧
    lang number_re num ∧ "0.5B" = num +:+ "B".
Proof.
  apply (extract_param_size_value "Qwen2-0.5B" "0.5B").
  vm_compute. reflexivity.
Defined.

(** A parameter size is extracted exactly when the lower-cased identifier
    contains such a number immediately followed by [b]; an [m] never
    counts. *)
Theorem extract_param_size_is_Some model_id :
  is_Some (extract_param_size model_id) ↔
  ∃ pre num rest,
    lower model_id = pre +:+ num +:+ String "b" rest ∧ lang number_re num.
Proof.
  split.
  - intros [size H]. apply extract_param_size_inv in H
      as (pre & num & rest & Heq & Hnum & _).
    exists pre, num, rest. split; assumption.
  - intros (pre & num & rest & Heq & Hnum).
    rewrite extract_param_size_second_pattern, Heq.
    destruct (search_complete pattern_lower pre (num +:+ String "b" rest)
                (match_here_lower_complete num rest Hnum)) as [g ->].
    eauto.
Qed.

(** * Further properties of the storage estimate *)

(** When every [size_gb] is a number or the key is absent, the estimate is
    the sum of the sizes, an absent one counting as zero, together with
    that sum times 1.1. *)
Theorem storage_estimation_sum models :
  Forall size_absent_or_number models →
  storage_estimation models =
  let total := fold_left (λ acc m, acc + size_of m)%Q models 0%Q in
  Ok (total, (total * (11 # 10))%Q).
Proof. apply storage_estimation_numbers. Qed.

(** A batch with one explicit null [size_gb] makes the estimate raise
    [TypeError], wherever the descriptor stands and whatever the others
    hold. *)
Theorem storage_estimation_raises_on_null models :
  (∃ m, m ∈ models ∧ m !! "size_gb" = Some PyNone) →
  storage_estimation models = Raise TypeError.
Proof. apply storage_estimation_null. Qed.

Lemma storage_estimation_sum_witness :
  storage_estimation [Sample.descriptor_qwen "qwen2"; delete "size_gb" Sample.descriptor_opt]
  = Ok ((0 + (279 # 100) + 0)%Q, ((0 + (279 # 100) + 0) * (11 # 10))%Q).
Proof.
  rewrite (storage_estimation_sum
             [Sample.descriptor_qwen "qwen2"; delete "size_gb" Sample.descriptor_opt])
    by (repeat constructor).
  vm_compute. reflexivity.
Defined.

Lemma storage_estimation_raises_on_null_witness :
  storage_estimation [Sample.descriptor_qwen "qwen2"; Sample.descriptor_opt]
  = Raise TypeError.
Proof.
  apply (storage_estimation_raises_on_null
           [Sample.descriptor_qwen "qwen2"; Sample.descriptor_opt]).
  exists Sample.descriptor_opt. split; [repeat constructor | reflexivity].
Defined.

Lemma accepted_size_field order api max_size_gb models :
  Forall (λ m, m !! "size_gb" = Some PyNone ∨ ∃ s, m !! "size_gb" = Some (PyFloat s))
         (accepted order api max_size_gb models).
Proof.
  induction models as [|model_id rest IH]; [constructor|].
  rewrite accepted_cons.
  destruct (evaluate order api max_size_gb model_id) as [metadata|] eqn:Hev;
    [|exact IH].
  constructor; [|exact IH].
  apply evaluate_Some, is_compatible_model_accepts in Hev.
  destruct Hev as (info & fmt & sz & fam & dl & lk & _ & _ & _ & _ & _ & _ & _ & _ & ->).
  rewrite metadata_size_gb. unfold rounded_size.
  destruct sz as [q|]; [|left; reflexivity].
  destruct (negb (Qeq_bool q 0)); [right; eauto | left; reflexivity].
Qed.

Lemma null_or_all_numbers (models : list (gmap string pyval)) :
  Forall (λ m, m !! "size_gb" = Some PyNone ∨ ∃ s, m !! "size_gb" = Some (PyFloat s))
         models →
  (∃ m, m ∈ models ∧ m !! "size_gb" = Some PyNone) ∨
  Forall (λ m, ∃ s, m !! "size_gb" = Some (PyFloat s)) models.
Proof.
  induction 1 as [|m rest Hm _ IH]; [right; constructor|].
  destruct Hm as [Hnull | Hnum].
  - left. exists m. split; [left | exact Hnull].
  - destruct IH as [(m' & Hin & Hnull) | Hall].
    + left. exists m'. split; [right; exact Hin | exact Hnull].
    + right. constructor; assumption.
Qed.

(** Selector and storage estimate compose only for known sizes: on what
    the selector returns, the estimate raises [TypeError] as soon as one
    descriptor has a null size, and otherwise is the sum of the sizes and
    that sum times 1.1. *)
Theorem selected_models_storage
    order api limit max_size_gb sort_by task result :
  select_top_models order api limit max_size_gb sort_by task = Ok result →
  ((∃ m, m ∈ result ∧ m !! "size_gb" = Some PyNone) ∧
   storage_estimation result = Raise TypeError) ∨
  (Forall (λ m, ∃ s, m !! "size_gb" = Some (PyFloat s)) result ∧
   storage_estimation result =
   let total := fold_left (λ acc m, acc + size_of m)%Q result 0%Q in
   Ok (total, (total * (11 # 10))%Q)).
Proof.
  rewrite select_top_models_take. intros H. injection H as <-.
  set (result := take _ _).
  assert (Forall (λ m, m !! "size_gb" = Some PyNone ∨
                       ∃ s, m !! "size_gb" = Some (PyFloat s)) result) as Hall
    by (apply Forall_take, accepted_size_field).
  destruct (null_or_all_numbers result Hall) as [Hnull | Hnum].
  - left. split; [exact Hnull | apply storage_estimation_null; exact Hnull].
  - right. split; [exact Hnum|].
    apply storage_estimation_numbers.
    eapply Forall_impl; [exact Hnum|].
    intros m [s Hs]. unfold size_absent_or_number. rewrite Hs. exact I.
Qed.

Lemma selected_models_storage_witness :
  ((∃ m, m ∈ [Sample.descriptor_qwen "qwen2"] ∧ m !! "size_gb" = Some PyNone) ∧
   storage_estimation [Sample.descriptor_qwen "qwen2"] = Raise TypeError) ∨
  (Forall (λ m, ∃ s, m !! "size_gb" = Some (PyFloat s)) [Sample.descriptor_qwen "qwen2"] ∧
   storage_estimation [Sample.descriptor_qwen "qwen2"] =
   let total := fold_left (λ acc m, acc + size_of m)%Q [Sample.descriptor_qwen "qwen2"] 0%Q in
   Ok (total, (total * (11 # 10))%Q)).
Proof.
  apply (selected_models_storage Sample.order_a (Sample.api Sample.stream3)
           2 20 "downloads" (Some "text-generation")).
  vm_compute. reflexivity.
Defined.

(** * Malformed entries in a listing *)

Lemma get_model_format_siblings (l : list pyval) attrs :
  l ≠ [] →
  get_model_format (PyObj (<["siblings" := PyList l]> attrs)) =
  try_except (format_loop l) (λ _, Ok None).
Proof.
  intros Hne.
  unfold get_model_format, get_model_format_body, has_truthy, hasattr, getattr.
  rewrite lookup_insert_eq. rewrite bool_decide_true by eauto.
  cbn [mbind result_bind mret result_ret].
  destruct l as [|x l]; [congruence|]. reflexivity.
Qed.

Lemma format_loop_skip (before : list (string * gmap string pyval)) rest :
  Forall (λ f, file_format (lower f.1) = None) before →
  format_loop (((λ f, file_obj f.1 f.2) <$> before) ++ rest) = format_loop rest.
Proof.
  induction 1 as [|[name a] before Hf _ IH]; [reflexivity|].
  rewrite fmap_cons, <- app_comm_cons. cbn [format_loop fst snd].
  rewrite getattr_file_obj. cbn [mbind result_bind str_lower].
  cbn [fst] in Hf. rewrite Hf. exact IH.
Qed.

(** Format detection stops at the first recognised file: entries after it
    are never looked at, however malformed; but an entry without a usable
    name that comes before any recognised file makes the detection answer
    [None], whatever weight files follow. *)
Theorem get_model_format_early_exit before (tail : list pyval) attrs :
  Forall (λ f, file_format (lower f.1) = None) before →
  (∀ name a fmt,
     file_format (lower name) = Some fmt →
     get_model_format
       (PyObj (<["siblings" :=
                 PyList (((λ f, file_obj f.1 f.2) <$> before) ++ file_obj name a :: tail)]>
               attrs))
     = Ok (Some fmt)) ∧
  (∀ bad e,
     (getattr bad "rfilename" ≫= str_lower) = Raise e →
     get_model_format
       (PyObj (<["siblings" :=
                 PyList (((λ f, file_obj f.1 f.2) <$> before) ++ bad :: tail)]>
               attrs))
     = Ok None).
Proof.
  intros Hbefore. split.
  - intros name a fmt Hfmt.
    rewrite get_model_format_siblings by (destruct before; discriminate).
    rewrite format_loop_skip by exact Hbefore.
    cbn [format_loop]. rewrite getattr_file_obj.
    cbn [mbind result_bind str_lower]. rewrite Hfmt. reflexivity.
  - intros bad e Hbad.
    rewrite get_model_format_siblings by (destruct before; discriminate).
    rewrite format_loop_skip by exact Hbefore.
    cbn [format_loop].
    destruct (getattr bad "rfilename") as [name|e'];
      cbn [mbind result_bind] in *; [|reflexivity].
    rewrite Hbad. reflexivity.
Qed.

Lemma get_model_format_early_exit_witness :
  get_model_format
    (PyObj {["siblings" :=
             PyList [file_obj "config.json" ∅; file_obj "model.gguf" ∅; PyInt 3]]})
  = Ok (Some "gguf") ∧
  get_model_format
    (PyObj {["siblings" :=
             PyList [file_obj "config.json" ∅; PyInt 3; file_obj "model.gguf" ∅]]})
  = Ok None.
Proof.
  destruct (get_model_format_early_exit [("config.json", ∅)] [PyInt 3] ∅
              ltac:(constructor; [reflexivity | constructor])) as [Hfirst _].
  destruct (get_model_format_early_exit [("config.json", ∅)] [file_obj "model.gguf" ∅] ∅
              ltac:(constructor; [reflexivity | constructor])) as [_ Hbad].
  split.
  - apply (Hfirst "model.gguf" ∅ "gguf"). reflexivity.
  - apply (Hbad (PyInt 3) AttributeError). reflexivity.
Defined.

Lemma sum_sizes_app l1 l2 :
  ∀ total_size,
    sum_sizes (l1 ++ l2) total_size = sum_sizes l1 total_size ≫= sum_sizes l2.
Proof.
  induction l1 as [|file rest IH]; intros total_size; [reflexivity|].
  rewrite <- app_comm_cons. cbn [sum_sizes].
  destruct (has_truthy file "size") as [[|]|e]; cbn [mbind result_bind];
    [|apply IH|reflexivity].
  destruct (getattr file "size") as [sz|e]; cbn [mbind result_bind]; [|reflexivity].
  destruct (add_num total_size sz) as [t|e]; cbn [mbind result_bind];
    [apply IH | reflexivity].
Qed.

(** A size that is not a number on any one file makes the whole total
    unknown ([None]); the size check then lets the candidate through
    under every ceiling. *)
Theorem get_model_size_gb_unknown
    (files : list (string * option Z)) name (s : string) (tail : list pyval) attrs :
  s ≠ "" →
  get_model_size_gb
    (PyObj (<["siblings" :=
              PyList (((λ f, file_obj f.1 f.2) <$> (sized_file <$> files)) ++
                      file_obj name {["size" := PyStr s]} :: tail)]> attrs))
  = Ok None ∧
  ∀ max_size_gb, too_large None max_size_gb = false.
Proof.
  intros Hs. split; [|reflexivity].
  unfold get_model_size_gb, get_model_size_gb_body, has_truthy at 1, hasattr, getattr.
  rewrite lookup_insert_eq. rewrite bool_decide_true by eauto.
  cbn [mbind result_bind mret result_ret].
  assert (truthy (PyList (((λ f, file_obj f.1 f.2) <$> (sized_file <$> files)) ++
                          file_obj name {["size" := PyStr s]} :: tail)) = true) as ->
    by (destruct files; reflexivity).
  cbn [iter mbind result_bind].
  rewrite sum_sizes_app.
  destruct (sum_sizes_listing files 0%Q) as (q & -> & _).
  cbn [mbind result_bind sum_sizes].
  unfold has_truthy, hasattr, getattr, file_obj.
  rewrite lookup_insert_ne by discriminate. rewrite lookup_singleton_eq.
  rewrite bool_decide_true by eauto.
  cbn [mbind result_bind mret result_ret truthy].
  destruct (String.eqb_spec s "") as [-> | _]; [congruence|].
  reflexivity.
Qed.

Lemma get_model_size_gb_unknown_witness :
  get_model_size_gb
    (PyObj {["siblings" :=
             PyList [file_obj "config.json" {["size" := PyInt 700]};
                     file_obj "model.safetensors" {["size" := PyStr "3 GB"]}]]})
  = Ok None.
Proof.
  apply (get_model_size_gb_unknown [("config.json", Some 700%Z)]
           "model.safetensors" "3 GB" [] ∅).
  discriminate.
Defined.
